(** * matrix-websockets-proxy: the two streaming handlers of [main.go]

  A shallow embedding of [serveEventSource] (the [/events] endpoint),
  [serveStream] (the [/stream] endpoint), [httpError], [handleHttpError]
  and [PopNextBatch], together with the parts of [net/http] and
  [encoding/json] whose documented behaviour those functions rely on.

  Go strings and byte slices are sequences of bytes: [string] here.
  Go's [int] is [Z]. *)

From Stdlib Require Import String Ascii List ZArith Lia Bool Arith.
From Stdlib Require DecimalString.
Import ListNotations.
Open Scope string_scope.
Set Warnings "-register-all,-abstract-large-number".

(* ===================================================================== *)
(** ** Go strings *)
(* ===================================================================== *)

Module GoString.

(** [s[lo:hi]]: the indices are in range when [0 <= lo <= hi <= len(s)];
    out of range is a run-time panic, [None] here. *)
Definition slice (s : string) (lo hi : nat) : option string :=
  if (lo <=? hi)%nat && (hi <=? String.length s)%nat
  then Some (substring lo (hi - lo) s)
  else None.

Definition is_empty (s : string) : bool :=
  match s with EmptyString => true | _ => false end.

Fixpoint contains_byte (c : ascii) (s : string) : bool :=
  match s with
  | EmptyString => false
  | String d s' => Ascii.eqb c d || contains_byte c s'
  end.

(** [strings.Split(s, "\n")]. *)
Fixpoint split_lines_aux (cur : string) (s : string) : list string :=
  match s with
  | EmptyString => [cur]
  | String c s' =>
      if Ascii.eqb c "010"%char
      then cur :: split_lines_aux EmptyString s'
      else split_lines_aux (cur ++ String c EmptyString) s'
  end.

Definition split_lines (s : string) : list string :=
  split_lines_aux EmptyString s.

End GoString.

(* ===================================================================== *)
(** ** Requests: [http.Header] and [url.Values] *)
(* ===================================================================== *)

Module Http.

(** [map[string][]string], as an association list; the first binding of
    a key is the map's entry. *)
Definition Values := list (string * list string).

Fixpoint lookup (k : string) (m : Values) : option (list string) :=
  match m with
  | [] => None
  | (k', vs) :: m' => if String.eqb k k' then Some vs else lookup k m'
  end.

(** [url.Values.Get]: the first value of the key, or the empty string. *)
Definition Values_Get (m : Values) (k : string) : string :=
  match lookup k m with
  | Some (v :: _) => v
  | _ => EmptyString
  end.

Definition is_lower (c : ascii) : bool :=
  (97 <=? nat_of_ascii c)%nat && (nat_of_ascii c <=? 122)%nat.
Definition is_upper (c : ascii) : bool :=
  (65 <=? nat_of_ascii c)%nat && (nat_of_ascii c <=? 90)%nat.
Definition is_digit (c : ascii) : bool :=
  (48 <=? nat_of_ascii c)%nat && (nat_of_ascii c <=? 57)%nat.
Definition to_upper (c : ascii) : ascii :=
  if is_lower c then ascii_of_nat (nat_of_ascii c - 32) else c.
Definition to_lower (c : ascii) : ascii :=
  if is_upper c then ascii_of_nat (nat_of_ascii c + 32) else c.

(** [textproto]'s table of bytes allowed in a header field name. *)
Definition validHeaderFieldByte (c : ascii) : bool :=
  is_lower c || is_upper c || is_digit c
  || GoString.contains_byte c "!#$%&'*+-.^_`|~".

Fixpoint all_bytes (p : ascii -> bool) (s : string) : bool :=
  match s with
  | EmptyString => true
  | String c s' => p c && all_bytes p s'
  end.

Fixpoint canonical_loop (upper : bool) (s : string) : string :=
  match s with
  | EmptyString => EmptyString
  | String c s' =>
      let c' := if upper then to_upper c else to_lower c in
      String c' (canonical_loop (Ascii.eqb c' "-"%char) s')
  end.

(** [textproto.CanonicalMIMEHeaderKey]: a name with a byte outside the
    table is returned unchanged; otherwise the first letter and every
    letter after a hyphen are upper case, the rest lower case. *)
Definition CanonicalMIMEHeaderKey (s : string) : string :=
  if all_bytes validHeaderFieldByte s then canonical_loop true s else s.

(** [http.Header.Get]: the first value under the canonical form of the
    key.  The server stores incoming names in canonical form. *)
Definition Header_Get (h : Values) (k : string) : string :=
  Values_Get h (CanonicalMIMEHeaderKey k).

(** [http.Header.Set] on the response's header map. *)
Fixpoint set (k v : string) (m : list (string * string))
  : list (string * string) :=
  match m with
  | [] => [(k, v)]
  | (k', v') :: m' =>
      if String.eqb k k' then (k, v) :: m' else (k', v') :: set k v m'
  end.

Fixpoint get (k : string) (m : list (string * string)) : option string :=
  match m with
  | [] => None
  | (k', v) :: m' => if String.eqb k k' then Some v else get k m'
  end.

Record Request := {
  Method : string;
  Header : Values;      (* req.Header *)
  Query : Values        (* req.URL.Query() *)
}.

Definition StatusOK : Z := 200.
Definition StatusMethodNotAllowed : Z := 405.
Definition StatusInternalServerError : Z := 500.

(** [http.StatusText], at the two codes the handlers pass to it. *)
Definition StatusText (code : Z) : string :=
  if (code =? 405)%Z then "Method Not Allowed"
  else if (code =? 500)%Z then "Internal Server Error"
  else EmptyString.

End Http.

(* ===================================================================== *)
(** ** [encoding/json], as [PopNextBatch] uses it *)
(* ===================================================================== *)

(** The model is exact on a fragment of JSON and says so when an input
    leaves it ([Unmodelled]).  The fragment: numbers are integer literals
    (no fraction, no exponent, no negative zero); strings hold bytes below
    0x80 and the escapes for the quote, the backslash, the slash, line
    feed, carriage return and tab; nesting is at most 10000 deep.
    Outside it are float64 formatting, UTF-8 validation and the escapes
    whose rendering changed between Go releases. *)

Module Json.

Definition quote : ascii := "034"%char.
Definition backslash : ascii := "092"%char.
Definition LF : ascii := "010"%char.
Definition CR : ascii := "013"%char.
Definition TAB : ascii := "009"%char.

(** JSON text, as the scanner reads it. *)
Inductive value : Type :=
| JNull
| JBool (b : bool)
| JNumber (n : Z)
| JString (s : string)
| JArray (vs : list value)
| JObject (ms : list (string * value)).

Inductive error : Type :=
| SyntaxError
| UnmarshalTypeError.

Inductive outcome (A : Type) : Type :=
| Ok (a : A)
| Fail (e : error)
| Unmodelled.
Arguments Ok {A} a.
Arguments Fail {A} e.
Arguments Unmodelled {A}.

Definition bind {A B} (x : outcome A) (f : A -> outcome B) : outcome B :=
  match x with
  | Ok a => f a
  | Fail e => Fail e
  | Unmodelled => Unmodelled
  end.

Definition is_ws (c : ascii) : bool :=
  Ascii.eqb c " "%char || Ascii.eqb c TAB || Ascii.eqb c LF || Ascii.eqb c CR.

Fixpoint skip_ws (s : string) : string :=
  match s with
  | String c s' => if is_ws c then skip_ws s' else s
  | EmptyString => EmptyString
  end.

Fixpoint drop (n : nat) (s : string) : string :=
  match n, s with
  | S n', String _ s' => drop n' s'
  | _, _ => s
  end.

Definition digit_val (c : ascii) : Z := Z.of_nat (nat_of_ascii c - 48).

Fixpoint scan_digits (acc : Z) (s : string) : Z * string :=
  match s with
  | String c s' =>
      if Http.is_digit c then scan_digits (acc * 10 + digit_val c) s'
      else (acc, s)
  | EmptyString => (acc, s)
  end.

(** After the integer part: a fraction or an exponent leaves the fragment,
    and so does negative zero. *)
Definition after_int (neg : bool) (n : Z) (r : string)
  : outcome (value * string) :=
  let finish :=
    if neg && (n =? 0)%Z then Unmodelled
    else Ok (JNumber (if neg then (- n)%Z else n), r) in
  match r with
  | String c _ =>
      if Ascii.eqb c "."%char || Ascii.eqb c "e"%char || Ascii.eqb c "E"%char
      then Unmodelled else finish
  | EmptyString => finish
  end.

(** A number, its sign already read: [0] or a digit [1-9] and more digits. *)
Definition scan_number (neg : bool) (s : string) : outcome (value * string) :=
  match s with
  | String c s' =>
      if Ascii.eqb c "0"%char then after_int neg 0 s'
      else if Http.is_digit c then
        let (n, r) := scan_digits (digit_val c) s' in after_int neg n r
      else Fail SyntaxError
  | EmptyString => Fail SyntaxError
  end.

Definition unescape (e : ascii) : outcome ascii :=
  if Ascii.eqb e quote then Ok quote
  else if Ascii.eqb e backslash then Ok backslash
  else if Ascii.eqb e "/"%char then Ok "/"%char
  else if Ascii.eqb e "n"%char then Ok LF
  else if Ascii.eqb e "r"%char then Ok CR
  else if Ascii.eqb e "t"%char then Ok TAB
  else if Ascii.eqb e "b"%char || Ascii.eqb e "f"%char || Ascii.eqb e "u"%char
  then Unmodelled
  else Fail SyntaxError.

Definition prepend (c : ascii) (x : outcome (string * string))
  : outcome (string * string) :=
  bind x (fun '(t, r) => Ok (String c t, r)).

(** A string literal, its opening quote already read. *)
Fixpoint scan_string (s : string) : outcome (string * string) :=
  match s with
  | EmptyString => Fail SyntaxError
  | String c s' =>
      if Ascii.eqb c quote then Ok (EmptyString, s')
      else if Ascii.eqb c backslash then
        match s' with
        | EmptyString => Fail SyntaxError
        | String e s'' =>
            match unescape e with
            | Ok ch => prepend ch (scan_string s'')
            | Fail err => Fail err
            | Unmodelled => Unmodelled
            end
        end
      else if (nat_of_ascii c <? 32)%nat then Fail SyntaxError
      else if (128 <=? nat_of_ascii c)%nat then Unmodelled
      else prepend c (scan_string s')
  end.

Definition maxNestingDepth : nat := 10000.

Fixpoint scan_value (fuel depth : nat) (s : string) {struct fuel}
  : outcome (value * string) :=
  match fuel with
  | O => Unmodelled
  | S fuel' =>
      match skip_ws s with
      | EmptyString => Fail SyntaxError
      | String c r =>
          if Ascii.eqb c "{"%char then
            if (maxNestingDepth <=? depth)%nat then Unmodelled else
            match skip_ws r with
            | EmptyString => Fail SyntaxError
            | String c2 r2 =>
                if Ascii.eqb c2 "}"%char then Ok (JObject [], r2)
                else bind (scan_members fuel' (S depth) r)
                          (fun '(ms, r') => Ok (JObject ms, r'))
            end
          else if Ascii.eqb c "["%char then
            if (maxNestingDepth <=? depth)%nat then Unmodelled else
            match skip_ws r with
            | EmptyString => Fail SyntaxError
            | String c2 r2 =>
                if Ascii.eqb c2 "]"%char then Ok (JArray [], r2)
                else bind (scan_elements fuel' (S depth) r)
                          (fun '(vs, r') => Ok (JArray vs, r'))
            end
          else if Ascii.eqb c quote then
            bind (scan_string r) (fun '(t, r') => Ok (JString t, r'))
          else if Ascii.eqb c "-"%char then scan_number true r
          else if Http.is_digit c then scan_number false (String c r)
          else if String.prefix "null" (String c r) then Ok (JNull, drop 3 r)
          else if String.prefix "true" (String c r)
               then Ok (JBool true, drop 3 r)
          else if String.prefix "false" (String c r)
               then Ok (JBool false, drop 4 r)
          else Fail SyntaxError
      end
  end

with scan_members (fuel depth : nat) (s : string) {struct fuel}
  : outcome (list (string * value) * string) :=
  match fuel with
  | O => Unmodelled
  | S fuel' =>
      match skip_ws s with
      | EmptyString => Fail SyntaxError
      | String c r =>
          if negb (Ascii.eqb c quote) then Fail SyntaxError else
          bind (scan_string r) (fun '(k, r1) =>
          match skip_ws r1 with
          | EmptyString => Fail SyntaxError
          | String c1 r2 =>
              if negb (Ascii.eqb c1 ":"%char) then Fail SyntaxError else
              bind (scan_value fuel' depth r2) (fun '(v, r3) =>
              match skip_ws r3 with
              | EmptyString => Fail SyntaxError
              | String c3 r4 =>
                  if Ascii.eqb c3 ","%char then
                    bind (scan_members fuel' depth r4)
                         (fun '(ms, r5) => Ok ((k, v) :: ms, r5))
                  else if Ascii.eqb c3 "}"%char then Ok ([(k, v)], r4)
                  else Fail SyntaxError
              end)
          end)
      end
  end

with scan_elements (fuel depth : nat) (s : string) {struct fuel}
  : outcome (list value * string) :=
  match fuel with
  | O => Unmodelled
  | S fuel' =>
      bind (scan_value fuel' depth s) (fun '(v, r1) =>
      match skip_ws r1 with
      | EmptyString => Fail SyntaxError
      | String c r2 =>
          if Ascii.eqb c ","%char then
            bind (scan_elements fuel' depth r2)
                 (fun '(vs, r3) => Ok (v :: vs, r3))
          else if Ascii.eqb c "]"%char then Ok ([v], r2)
          else Fail SyntaxError
      end)
  end.

(** The whole input is one value, white space around it allowed.  Every
    call consumes a byte, so the fuel given here never runs out. *)
Definition parse (s : string) : outcome value :=
  bind (scan_value (S (String.length s)) 0 s) (fun '(v, r) =>
  match skip_ws r with
  | EmptyString => Ok v
  | String _ _ => Fail SyntaxError
  end).

(** *** Go values held by an [interface{}] after decoding *)

Inductive iface : Type :=
| INil
| IBool (b : bool)
| IFloat64 (n : Z)                       (* a float64 holding an integer *)
| IString (s : string)
| ISlice (l : list iface)                (* []interface{} *)
| IMap (m : list (string * iface)).      (* map[string]interface{} *)

(** [m[k] = v] on a map kept in the order [Marshal] writes it: sorted by
    key, bytewise, one binding per key. *)
Fixpoint map_insert (k : string) (v : iface) (m : list (string * iface))
  : list (string * iface) :=
  match m with
  | [] => [(k, v)]
  | (k', v') :: m' =>
      match String.compare k k' with
      | Lt => (k, v) :: m
      | Eq => (k, v) :: m'
      | Gt => (k', v') :: map_insert k v m'
      end
  end.

(** Integers below 2^53 in magnitude are float64 values and are printed
    back digit for digit. *)
Definition exact_float (n : Z) : bool := (Z.abs n <? 2 ^ 53)%Z.

(** Decoding into an [interface{}]: objects become maps (a repeated key
    keeps its last value), arrays slices, numbers float64. *)
Fixpoint toInterface (v : value) : outcome iface :=
  match v with
  | JNull => Ok INil
  | JBool b => Ok (IBool b)
  | JNumber n => if exact_float n then Ok (IFloat64 n) else Unmodelled
  | JString s => Ok (IString s)
  | JArray vs =>
      bind ((fix elements (vs : list value) : outcome (list iface) :=
               match vs with
               | [] => Ok []
               | v :: vs' =>
                   bind (toInterface v) (fun i =>
                   bind (elements vs') (fun l => Ok (i :: l)))
               end) vs)
           (fun l => Ok (ISlice l))
  | JObject ms =>
      bind ((fix members (ms : list (string * value))
                 (acc : list (string * iface))
               : outcome (list (string * iface)) :=
               match ms with
               | [] => Ok acc
               | (k, v) :: ms' =>
                   bind (toInterface v) (fun i =>
                   members ms' (map_insert k i acc))
               end) ms [])
           (fun m => Ok (IMap m))
  end.

(** *** The local type [SyncResponse] of [PopNextBatch] *)

Record SyncResponse := {
  AccountData : iface;
  ToDevice : iface;
  DeviceLists : iface;
  Presence : iface;
  Rooms : iface;
  Groups : iface;
  DeviceOTKCount : Z;
  NextBatch : string
}.

(** [var jsr SyncResponse]: the zero value. *)
Definition zero : SyncResponse :=
  {| AccountData := INil; ToDevice := INil; DeviceLists := INil;
     Presence := INil; Rooms := INil; Groups := INil;
     DeviceOTKCount := 0; NextBatch := EmptyString |}.

Inductive Field : Type :=
| FAccountData | FToDevice | FDeviceLists | FPresence | FRooms | FGroups
| FDeviceOTKCount | FNextBatch.

(** The fields in declaration order, which is the order [Marshal] writes. *)
Definition fields : list Field :=
  [FAccountData; FToDevice; FDeviceLists; FPresence; FRooms; FGroups;
   FDeviceOTKCount; FNextBatch].

(** The name the [json] key of each struct tag gives.  The text after the
    closing quote of a tag ([,omit]) is not part of the key's value: no
    field carries an [omitempty] option. *)
Definition fieldName (f : Field) : string :=
  match f with
  | FAccountData => "account_data"
  | FToDevice => "to_device"
  | FDeviceLists => "device_lists"
  | FPresence => "presence"
  | FRooms => "rooms"
  | FGroups => "groups"
  | FDeviceOTKCount => "device_one_time_keys_count"
  | FNextBatch => "next_batch"
  end.

Fixpoint foldName (s : string) : string :=
  match s with
  | EmptyString => EmptyString
  | String c s' => String (Http.to_upper c) (foldName s')
  end.

(** The decoder's choice of a field for a key: the exact name, else the
    name that equals the key when case is ignored. *)
Definition findField (key : string) : option Field :=
  match find (fun f => String.eqb (fieldName f) key) fields with
  | Some f => Some f
  | None =>
      find (fun f => String.eqb (foldName (fieldName f)) (foldName key)) fields
  end.

Definition int64_range (n : Z) : bool :=
  ((- 2 ^ 63 <=? n) && (n <=? 2 ^ 63 - 1))%Z.

Definition set_iface (f : Field) (i : iface) (r : SyncResponse)
  : SyncResponse :=
  match f with
  | FAccountData =>
      {| AccountData := i; ToDevice := ToDevice r;
         DeviceLists := DeviceLists r; Presence := Presence r;
         Rooms := Rooms r; Groups := Groups r;
         DeviceOTKCount := DeviceOTKCount r; NextBatch := NextBatch r |}
  | FToDevice =>
      {| AccountData := AccountData r; ToDevice := i;
         DeviceLists := DeviceLists r; Presence := Presence r;
         Rooms := Rooms r; Groups := Groups r;
         DeviceOTKCount := DeviceOTKCount r; NextBatch := NextBatch r |}
  | FDeviceLists =>
      {| AccountData := AccountData r; ToDevice := ToDevice r;
         DeviceLists := i; Presence := Presence r;
         Rooms := Rooms r; Groups := Groups r;
         DeviceOTKCount := DeviceOTKCount r; NextBatch := NextBatch r |}
  | FPresence =>
      {| AccountData := AccountData r; ToDevice := ToDevice r;
         DeviceLists := DeviceLists r; Presence := i;
         Rooms := Rooms r; Groups := Groups r;
         DeviceOTKCount := DeviceOTKCount r; NextBatch := NextBatch r |}
  | FRooms =>
      {| AccountData := AccountData r; ToDevice := ToDevice r;
         DeviceLists := DeviceLists r; Presence := Presence r;
         Rooms := i; Groups := Groups r;
         DeviceOTKCount := DeviceOTKCount r; NextBatch := NextBatch r |}
  | FGroups =>
      {| AccountData := AccountData r; ToDevice := ToDevice r;
         DeviceLists := DeviceLists r; Presence := Presence r;
         Rooms := Rooms r; Groups := i;
         DeviceOTKCount := DeviceOTKCount r; NextBatch := NextBatch r |}
  | FDeviceOTKCount | FNextBatch => r
  end.

Definition set_DeviceOTKCount (n : Z) (r : SyncResponse) : SyncResponse :=
  {| AccountData := AccountData r; ToDevice := ToDevice r;
     DeviceLists := DeviceLists r; Presence := Presence r;
     Rooms := Rooms r; Groups := Groups r;
     DeviceOTKCount := n; NextBatch := NextBatch r |}.

Definition set_NextBatch (s : string) (r : SyncResponse) : SyncResponse :=
  {| AccountData := AccountData r; ToDevice := ToDevice r;
     DeviceLists := DeviceLists r; Presence := Presence r;
     Rooms := Rooms r; Groups := Groups r;
     DeviceOTKCount := DeviceOTKCount r; NextBatch := s |}.

(** The decoder's state: the struct being filled and the first type
    error met ([saveError]); decoding goes on after a type error. *)
Definition dstate : Type := SyncResponse * option error.

Definition saveError (e : error) (st : dstate) : dstate :=
  match snd st with
  | None => (fst st, Some e)
  | Some _ => st
  end.

(** One member of the top-level object stored into its field.  [null]
    resets an [interface{}] and leaves an [int] or a [string] as it is. *)
Definition storeField (f : Field) (v : value) (st : dstate) : outcome dstate :=
  match f with
  | FDeviceOTKCount =>
      match v with
      | JNull => Ok st
      | JNumber n =>
          if int64_range n then Ok (set_DeviceOTKCount n (fst st), snd st)
          else Ok (saveError UnmarshalTypeError st)
      | _ => Ok (saveError UnmarshalTypeError st)
      end
  | FNextBatch =>
      match v with
      | JNull => Ok st
      | JString s => Ok (set_NextBatch s (fst st), snd st)
      | _ => Ok (saveError UnmarshalTypeError st)
      end
  | _ => bind (toInterface v) (fun i => Ok (set_iface f i (fst st), snd st))
  end.

(** The members of the object in input order; a key that names no field
    is skipped. *)
Fixpoint decodeObject (ms : list (string * value)) (st : dstate)
  : outcome dstate :=
  match ms with
  | [] => Ok st
  | (k, v) :: ms' =>
      match findField k with
      | Some f => bind (storeField f v st) (decodeObject ms')
      | None => decodeObject ms' st
      end
  end.

(** [json.Unmarshal(in, &jsr)]: the syntax of the whole input is checked
    first; [null] leaves the struct as it is; a value that is no object
    is a type error. *)
Definition Unmarshal (input : string) (jsr : SyncResponse)
  : outcome dstate :=
  bind (parse input) (fun v =>
  match v with
  | JNull => Ok (jsr, None)
  | JObject ms => decodeObject ms (jsr, None)
  | _ => Ok (jsr, Some UnmarshalTypeError)
  end).

(** *** Encoding *)

Definition hex (n : nat) : ascii :=
  match String.get n "0123456789abcdef" with
  | Some c => c
  | None => "0"%char
  end.

(** One byte of a string, with HTML escaping on, as [Marshal] has it. *)
Definition escape_byte (c : ascii) : string :=
  let n := nat_of_ascii c in
  if Ascii.eqb c quote || Ascii.eqb c backslash
  then String backslash (String c EmptyString)
  else if Ascii.eqb c LF then String backslash "n"
  else if Ascii.eqb c CR then String backslash "r"
  else if Ascii.eqb c TAB then String backslash "t"
  else if (n <? 32)%nat || Ascii.eqb c "<"%char || Ascii.eqb c ">"%char
          || Ascii.eqb c "&"%char
  then String backslash
         ("u00" ++ String (hex (n / 16)) (String (hex (n mod 16)) EmptyString))
  else String c EmptyString.

Fixpoint escape (s : string) : string :=
  match s with
  | EmptyString => EmptyString
  | String c s' => escape_byte c ++ escape s'
  end.

Definition encode_string (s : string) : string :=
  String quote (escape s ++ String quote EmptyString).

Definition encode_int (n : Z) : string :=
  DecimalString.NilZero.string_of_int (Z.to_int n).

Fixpoint join (parts : list string) : string :=
  match parts with
  | [] => EmptyString
  | [p] => p
  | p :: ps => p ++ "," ++ join ps
  end.

Fixpoint encode (i : iface) : string :=
  match i with
  | INil => "null"
  | IBool true => "true"
  | IBool false => "false"
  | IFloat64 n => encode_int n
  | IString s => encode_string s
  | ISlice l => "[" ++ join (map encode l) ++ "]"
  | IMap m =>
      "{" ++ join (map (fun kv => encode_string (fst kv) ++ ":"
                                    ++ encode (snd kv)) m) ++ "}"
  end.

(** The encoded value of each field. *)
Definition encodeField (r : SyncResponse) (f : Field) : string :=
  match f with
  | FAccountData => encode (AccountData r)
  | FToDevice => encode (ToDevice r)
  | FDeviceLists => encode (DeviceLists r)
  | FPresence => encode (Presence r)
  | FRooms => encode (Rooms r)
  | FGroups => encode (Groups r)
  | FDeviceOTKCount => encode_int (DeviceOTKCount r)
  | FNextBatch => encode_string (NextBatch r)
  end.

(** The members [Marshal] writes for the struct: every field, in
    declaration order, under its tag name. *)
Definition members (r : SyncResponse) : list (string * string) :=
  map (fun f => (fieldName f, encodeField r f)) fields.

Definition encode_member (kv : string * string) : string :=
  encode_string (fst kv) ++ ":" ++ snd kv.

(** [json.Marshal(jsr)]. *)
Definition Marshal (r : SyncResponse) : string :=
  "{" ++ join (map encode_member (members r)) ++ "}".

End Json.

(** [PopNextBatch]: the result is [Ok out] for [(out, nil)] and [Fail err]
    for [(nil, err)].
<<
    var jsr SyncResponse
    if err = json.Unmarshal(in, &jsr); err != nil {
        return
    }
    jsr.NextBatch = (empty string)
    out, err = json.Marshal(jsr)
    return
>> *)
Definition PopNextBatch (input : string) : Json.outcome string :=
  match Json.Unmarshal input Json.zero with
  | Json.Unmodelled => Json.Unmodelled
  | Json.Fail e => Json.Fail e
  | Json.Ok (_, Some e) => Json.Fail e
  | Json.Ok (jsr, None) =>
      Json.Ok (Json.Marshal (Json.set_NextBatch EmptyString jsr))
  end.

(** Test payloads are written with apostrophes where JSON has double
    quotes. *)
Fixpoint js (s : string) : string :=
  match s with
  | EmptyString => EmptyString
  | String c s' =>
      String (if Ascii.eqb c "'"%char then Json.quote else c) (js s')
  end.

(* ===================================================================== *)
(** ** The [proxy] package, as the handlers see it *)
(* ===================================================================== *)

Module Proxy.

(** Modelled from the spec: the declarations of [proxy.HttpError] and
    [proxy.MatrixError] are not in [main.go]; the handlers read the fields
    [StatusCode], [ContentType] and [Body] of the first and the embedded
    [HttpError] of the second. *)
Record HttpError := {
  StatusCode : Z;
  ContentType : string;
  Body : string
}.

(** The dynamic type of an [error] value, as the type switches of the
    handlers tell them apart. *)
Inductive GoError : Type :=
| MatrixError (h : HttpError) (errcode message : string)
| HttpErr (h : HttpError)
| JsonError (e : Json.error)
| OtherError (msg : string).

(** Modelled from the spec: the session record of [proxy.Client]. *)
Record Client := {
  Url : string;
  AccessToken : string;
  NextSyncBatch : string;
  Filter : string;
  Presence : string
}.

Definition NewClient (url accessToken : string) : Client :=
  {| Url := url; AccessToken := accessToken; NextSyncBatch := EmptyString;
     Filter := EmptyString; Presence := EmptyString |}.

Definition set_NextSyncBatch (s : string) (c : Client) : Client :=
  {| Url := Url c; AccessToken := AccessToken c; NextSyncBatch := s;
     Filter := Filter c; Presence := Presence c |}.

Definition set_Filter (s : string) (c : Client) : Client :=
  {| Url := Url c; AccessToken := AccessToken c;
     NextSyncBatch := NextSyncBatch c; Filter := s; Presence := Presence c |}.

Definition set_Presence (s : string) (c : Client) : Client :=
  {| Url := Url c; AccessToken := AccessToken c;
     NextSyncBatch := NextSyncBatch c; Filter := Filter c; Presence := s |}.

(** What one call of [client.Sync] comes back with: the body and the
    resumption token of a successful response, or an error. *)
Inductive SyncReply : Type :=
| SyncOk (content : string) (next_batch : string)
| SyncErr (e : GoError).

(** Modelled from the spec: [proxy.Client.Sync] returns the response body
    unaltered and keeps the response's resumption token as the session's
    cursor; a failed call leaves the session as it was. *)
Definition afterSync (r : SyncReply) (c : Client)
  : Client * (string * option GoError) :=
  match r with
  | SyncOk content next_batch =>
      (set_NextSyncBatch next_batch c, (content, None))
  | SyncErr e => (c, (EmptyString, Some e))
  end.

End Proxy.

(* ===================================================================== *)
(** ** The handler's world: response writer, upstream, client *)
(* ===================================================================== *)

(** What the handler does that can be seen from outside, in order. *)
Inductive Event : Type :=
| EUpdatePresence (c : Proxy.Client) (presence : string)
| ESync (arg : bool) (c : Proxy.Client)
| EUpgrade (subprotocols : list string) (compression : bool) (ok : bool)
| EEnableWriteCompression (b : bool)
| ESendMessage (msg : string)
| EStart
| EHeaderSet (k v : string)
| EWriteHeader (code : Z)
| EWrite (b : string)
| EFlush
| EReadConnectionExists (b : bool).

(** [http.ResponseWriter], by its documented contract: the header map can
    be changed until the header is written; the first [WriteHeader] fixes
    status and header; [Write] and [Flush] write the header with status
    200 when nothing has; a later [WriteHeader] is superfluous and
    ignored.  (As in Go 1.16, which the Dockerfile builds with; informational
    1xx codes are treated like the others.)

    [body] holds the bytes of the [Write] calls that the response writer
    accepted, in order.  Under a status that allows no body a write is
    refused; on a HEAD request the writes are accepted and the server
    sends none of them, so there [body] is what the handler wrote and not
    what went out.  The handlers write a body on a HEAD request only when
    they answer 405. *)
Record ResponseWriter := {
  header : list (string * string);
  wroteHeader : bool;
  status : Z;
  sentHeader : list (string * string);
  body : string;
  flushedBody : string
}.

Definition freshResponse : ResponseWriter :=
  {| header := []; wroteHeader := false; status := 0; sentHeader := [];
     body := EmptyString; flushedBody := EmptyString |}.

(** What the environment decides: the flags of the command line, what the
    response writer implements, the replies of the upstream to the
    successive [Sync] calls, the values of [connectionExists] that the
    loop reads at its successive boundaries (the flag is cleared by the
    goroutine that waits on [CloseNotify]; when the list runs out the
    connection still exists), and whether the websocket handshake
    succeeds.

    [beyondJson] is what [PopNextBatch] returns on a payload that the
    model of [encoding/json] does not cover: [inl out] for [(out, nil)],
    [inr err] for [(nil, err)].  The loop goes on whatever it is.

    [bridge] is what [c.Start()] does once [serveStream] has handed the
    connection over, and [bridgeReturns] whether it ever returns.
    Modelled from the spec: the bridge of the [proxy] package keeps
    calling [Sync] and sending frames until a failure or a close; its
    events are the environment's here, whatever they are. *)
Record Env := {
  upstreamURL : string;
  compress : bool;
  isFlusher : bool;
  isCloseNotifier : bool;
  upstream : list Proxy.SyncReply;
  connectionExists : list bool;
  upgradeOk : bool;
  beyondJson : string -> string + Json.error;
  bridge : list Event;
  bridgeReturns : bool
}.

Record World := {
  rw : ResponseWriter;
  trace : list Event;
  reads : list bool
}.

Definition initWorld (env : Env) : World :=
  {| rw := freshResponse; trace := []; reads := connectionExists env |}.

(** What a piece of handler code ends in: a value (the handler goes on or
    returns), a panic (the server aborts the request), or a call that
    never returns. *)
Inductive res (A : Type) : Type :=
| Val (a : A)
| Panic (msg : string)
| Blocked.
Arguments Val {A} a.
Arguments Panic {A} msg.
Arguments Blocked {A}.

Definition M (A : Type) : Type := World -> res A * World.

Definition ret {A} (a : A) : M A := fun w => (Val a, w).

Definition bind {A B} (c : M A) (f : A -> M B) : M B :=
  fun w =>
    match c w with
    | (Val a, w') => f a w'
    | (Panic msg, w') => (Panic msg, w')
    | (Blocked, w') => (Blocked, w')
    end.

Declare Scope handler_scope.
Delimit Scope handler_scope with handler.
Notation "x <- c ;; k" := (bind c (fun x => k))
  (at level 61, c at next level, right associativity) : handler_scope.
Notation "c ;; k" := (bind c (fun _ => k))
  (at level 61, right associativity) : handler_scope.
Open Scope handler_scope.

Definition panic {A} (msg : string) : M A := fun w => (Panic msg, w).
Definition blocked {A} : M A := fun w => (Blocked, w).

Definition emit (e : Event) : M unit :=
  fun w => (Val tt, {| rw := rw w; trace := trace w ++ [e]; reads := reads w |}).

Definition emitAll (es : list Event) : M unit :=
  fun w => (Val tt, {| rw := rw w; trace := trace w ++ es; reads := reads w |}).

Definition getRW : M ResponseWriter := fun w => (Val (rw w), w).

Definition putRW (r : ResponseWriter) : M unit :=
  fun w => (Val tt, {| rw := r; trace := trace w; reads := reads w |}).

(** [bodyAllowedForStatus]: no body goes out under 1xx, 204 or 304. *)
Definition bodyAllowedForStatus (code : Z) : bool :=
  negb (((100 <=? code) && (code <=? 199)) || (code =? 204) || (code =? 304))%Z.

(** [checkWriteHeaderCode]: a code that has not three digits is a panic. *)
Definition validStatus (code : Z) : bool := ((100 <=? code) && (code <=? 999))%Z.

Definition writeHeaderNow (code : Z) (r : ResponseWriter) : ResponseWriter :=
  {| header := header r; wroteHeader := true; status := code;
     sentHeader := header r; body := body r; flushedBody := flushedBody r |}.

(** [rw.Header().Set(k, v)]. *)
Definition rw_HeaderSet (k v : string) (r : ResponseWriter) : ResponseWriter :=
  {| header := Http.set (Http.CanonicalMIMEHeaderKey k) v (header r);
     wroteHeader := wroteHeader r; status := status r;
     sentHeader := sentHeader r; body := body r;
     flushedBody := flushedBody r |}.

Definition HeaderSet (k v : string) : M unit :=
  emit (EHeaderSet k v) ;;
  r <- getRW ;;
  putRW (rw_HeaderSet k v r).

(** [rw.WriteHeader(code)]. *)
Definition WriteHeader (code : Z) : M unit :=
  emit (EWriteHeader code) ;;
  r <- getRW ;;
  if wroteHeader r then ret tt
  else if validStatus code then putRW (writeHeaderNow code r)
  else panic "invalid WriteHeader code".

(** [rw.Write(b)]. *)
Definition rw_Write (b : string) (r : ResponseWriter) : ResponseWriter :=
  let r := if wroteHeader r then r else writeHeaderNow Http.StatusOK r in
  {| header := header r; wroteHeader := true; status := status r;
     sentHeader := sentHeader r;
     body := if bodyAllowedForStatus (status r) then body r ++ b else body r;
     flushedBody := flushedBody r |}.

Definition Write (b : string) : M unit :=
  emit (EWrite b) ;;
  r <- getRW ;;
  putRW (rw_Write b r).

(** [flusher.Flush()]: what has been written goes out. *)
Definition rw_Flush (r : ResponseWriter) : ResponseWriter :=
  let r := if wroteHeader r then r else writeHeaderNow Http.StatusOK r in
  {| header := header r; wroteHeader := true; status := status r;
     sentHeader := sentHeader r; body := body r; flushedBody := body r |}.

(** What the server sends as the body of the response: the writes it
    accepted, and nothing in answer to a HEAD request. *)
Definition wireBody (req : Http.Request) (r : ResponseWriter) : string :=
  if String.eqb (Http.Method req) "HEAD" then EmptyString else body r.

Definition Flush : M unit :=
  emit EFlush ;;
  r <- getRW ;;
  putRW (rw_Flush r).

Definition nl : string := String Json.LF EmptyString.

(** [http.Error(w, error, code)]. *)
Definition http_Error (error : string) (code : Z) : M unit :=
  HeaderSet "Content-Type" "text/plain; charset=utf-8" ;;
  HeaderSet "X-Content-Type-Options" "nosniff" ;;
  WriteHeader code ;;
  Write (error ++ nl).

(** [httpError]. *)
Definition httpError (status : Z) : M unit :=
  http_Error (Http.StatusText status) status.

(** [handleHttpError]. *)
Definition handleHttpError (errp : Proxy.HttpError) : M unit :=
  HeaderSet "Content-Type" (Proxy.ContentType errp) ;;
  WriteHeader (Proxy.StatusCode errp) ;;
  Write (Proxy.Body errp).

(** The type switch on [err] that both handlers run when [Sync] fails. *)
Definition relayError (err : Proxy.GoError) : M unit :=
  match err with
  | Proxy.MatrixError h _ _ => handleHttpError h
  | Proxy.HttpErr h => handleHttpError h
  | _ => httpError Http.StatusInternalServerError
  end.

(** Lines 79-86 of [serveEventSource], and the same lines of
    [serveStream] in both versions of [main.go]:
<<
    accessToken := req.Header.Get("Authorization")
    if accessToken != (empty string) {
        if accessToken[0:6] == "Bearer " {
            accessToken = accessToken[7:len(accessToken)]
        }
    } else {
        accessToken = req.URL.Query().Get("access_token")
    }
>> *)
Definition resolveAccessToken (req : Http.Request) : M string :=
  let accessToken := Http.Header_Get (Http.Header req) "Authorization" in
  if negb (GoString.is_empty accessToken) then
    match GoString.slice accessToken 0 6 with
    | None => panic "slice bounds out of range"
    | Some pre =>
        if String.eqb pre "Bearer " then
          match GoString.slice accessToken 7 (String.length accessToken) with
          | None => panic "slice bounds out of range"
          | Some rest => ret rest
          end
        else ret accessToken
    end
  else ret (Http.Values_Get (Http.Query req) "access_token").

(** Lines 93-98 of [serveEventSource]: the header [last-event-id], and
    [since] only when the header gives nothing. *)
Definition resolveCursor (req : Http.Request) : string :=
  let NextSyncBatch := Http.Header_Get (Http.Header req) "last-event-id" in
  if GoString.is_empty NextSyncBatch
  then Http.Values_Get (Http.Query req) "since"
  else NextSyncBatch.

(** The read of [connectionExists] at the end of an iteration. *)
Definition readConnectionExists : M bool :=
  fun w =>
    let b := match reads w with [] => true | b :: _ => b end in
    (Val b, {| rw := rw w; trace := trace w ++ [EReadConnectionExists b];
               reads := tl (reads w) |}).

(** [PopNextBatch] as the loop calls it: [(out, nil)] or [(nil, err)],
    on every payload: where the model of [encoding/json] has no answer,
    the answer is the environment's. *)
Definition callPopNextBatch (env : Env) (content : string)
  : string * option Proxy.GoError :=
  match PopNextBatch content with
  | Json.Ok out => (out, None)
  | Json.Fail e => (EmptyString, Some (Proxy.JsonError e))
  | Json.Unmodelled =>
      match beyondJson env content with
      | inl out => (out, None)
      | inr e => (EmptyString, Some (Proxy.JsonError e))
      end
  end.

(* ===================================================================== *)
(** ** [serveEventSource]: the [/events] endpoint *)
(* ===================================================================== *)

(** The body of the [for] loop, entered with the result of the [Sync]
    call before it.  [upstream] holds the replies still to come; when
    there is none the call [client.Sync(true)] does not return.
<<
    for {
        if err != nil {
            switch err.(type) { ... }
            return
        }
        fmt.Fprintf(rw, "id: %s\n", client.NextSyncBatch)
        fmt.Fprintf(rw, "event: sync\n")
        content, err = PopNextBatch(content)
        fmt.Fprintf(rw, "data: %s\n\n", content)
        flusher.Flush()
        if !connectionExists {
            return
        }
        content, err = client.Sync(true)
    }
>> *)
Fixpoint eventLoop (env : Env) (upstream : list Proxy.SyncReply)
    (client : Proxy.Client) (content : string) (err : option Proxy.GoError)
  : M unit :=
  match err with
  | Some e => relayError e
  | None =>
      Write ("id: " ++ Proxy.NextSyncBatch client ++ nl) ;;
      Write ("event: sync" ++ nl) ;;
      let popped := callPopNextBatch env content in
      let content := fst popped in
      Write ("data: " ++ content ++ nl ++ nl) ;;
      Flush ;;
      exists_ <- readConnectionExists ;;
      if negb exists_ then ret tt
      else
        emit (ESync true client) ;;
        match upstream with
        | [] => blocked
        | reply :: upstream' =>
            let (client', result) := Proxy.afterSync reply client in
            eventLoop env upstream' client' (fst result) (snd result)
        end
  end.

Definition serveEventSource (env : Env) (req : Http.Request) : M unit :=
  if negb (String.eqb (Http.Method req) "GET") then
    httpError Http.StatusMethodNotAllowed
  else if negb (isFlusher env) then
    http_Error "Streaming unsupported!" Http.StatusInternalServerError
  else if negb (isCloseNotifier env) then
    panic "interface conversion: not an http.CloseNotifier"
  else
    accessToken <- resolveAccessToken req ;;
    let client := Proxy.NewClient (upstreamURL env) accessToken in
    let client :=
      Proxy.set_Filter (Http.Values_Get (Http.Query req) "filter") client in
    let client :=
      Proxy.set_Presence (Http.Values_Get (Http.Query req) "presence") client in
    let client := Proxy.set_NextSyncBatch (resolveCursor req) client in
    HeaderSet "Content-Type" "text/event-stream" ;;
    HeaderSet "Cache-Control" "no-cache" ;;
    HeaderSet "Connection" "keep-alive" ;;
    HeaderSet "Access-Control-Allow-Origin" "*" ;;
    emit (ESync false client) ;;
    match upstream env with
    | [] => blocked
    | reply :: upstream' =>
        let (client', result) := Proxy.afterSync reply client in
        eventLoop env upstream' client' (fst result) (snd result)
    end.

(* ===================================================================== *)
(** ** [serveStream]: the [/stream] endpoint (the same in both files) *)
(* ===================================================================== *)

(** [client.UpdatePresence], [upgrader.Upgrade], [proxy.New],
    [c.SendMessage] and [c.Start] are calls into other packages: each is
    an event here.  Modelled from the spec: [UpdatePresence] is a request
    of its own and leaves the cursor alone.  After [EStart] come the
    events of the bridge, which the environment gives; [serveStream]
    returns when [c.Start()] does. *)
Definition serveStream (env : Env) (req : Http.Request) : M unit :=
  if negb (String.eqb (Http.Method req) "GET") then
    httpError Http.StatusMethodNotAllowed
  else
    accessToken <- resolveAccessToken req ;;
    let client := Proxy.NewClient (upstreamURL env) accessToken in
    let client :=
      Proxy.set_NextSyncBatch (Http.Values_Get (Http.Query req) "since") client in
    let client :=
      Proxy.set_Filter (Http.Values_Get (Http.Query req) "filter") client in
    emit (EUpdatePresence client (Http.Values_Get (Http.Query req) "presence")) ;;
    emit (ESync false client) ;;
    match upstream env with
    | [] => blocked
    | reply :: _ =>
        let (client', result) := Proxy.afterSync reply client in
        match snd result with
        | Some e => relayError e
        | None =>
            emit (EUpgrade ["m.json"] (compress env) (upgradeOk env)) ;;
            if negb (upgradeOk env) then ret tt
            else
              emit (EEnableWriteCompression (compress env)) ;;
              emit (ESendMessage (fst result)) ;;
              emit EStart ;;
              emitAll (bridge env) ;;
              if bridgeReturns env then ret tt else blocked
        end
    end.

(** Running a handler on a fresh response. *)
Definition run (h : M unit) (env : Env) : res unit * World :=
  h (initWorld env).

Definition is_upstream_call (e : Event) : bool :=
  match e with
  | ESync _ _ | EUpdatePresence _ _ => true
  | _ => false
  end.

Definition is_sync (e : Event) : bool :=
  match e with
  | ESync _ _ => true
  | _ => false
  end.


(* ===================================================================== *)
(** ** Vocabulary of the statements *)
(* ===================================================================== *)

Definition authorization (req : Http.Request) : string :=
  Http.Header_Get (Http.Header req) "Authorization".

Definition access_token (req : Http.Request) : string :=
  Http.Values_Get (Http.Query req) "access_token".

Definition lastEventId (req : Http.Request) : string :=
  Http.Header_Get (Http.Header req) "last-event-id".

Definition since (req : Http.Request) : string :=
  Http.Values_Get (Http.Query req) "since".

Definition is_GET (req : Http.Request) : bool :=
  String.eqb (Http.Method req) "GET".

(** The requests on which credential resolution goes through. *)
Definition token_resolves (req : Http.Request) : bool :=
  GoString.is_empty (authorization req)
  || (6 <=? String.length (authorization req))%nat.

(** The response writer of the request can stream. *)
Definition streams (env : Env) : bool := isFlusher env && isCloseNotifier env.

(** The first [Sync] call of a trace: its argument and the session it is
    issued with. *)
Definition first_sync (t : list Event) : option (bool * Proxy.Client) :=
  match find is_sync t with
  | Some (ESync arg c) => Some (arg, c)
  | _ => None
  end.

Definition contentType (r : ResponseWriter) : option string :=
  Http.get "Content-Type" (sentHeader r).

(** The response carries status, content type and body of [h]. *)
Definition relays (h : Proxy.HttpError) (r : ResponseWriter) : Prop :=
  status r = Proxy.StatusCode h
  /\ contentType r = Some (Proxy.ContentType h)
  /\ body r = Proxy.Body h.

(** The [HttpError] inside an error that the handlers relay. *)
Definition classified (e : Proxy.GoError) : option Proxy.HttpError :=
  match e with
  | Proxy.MatrixError h _ _ | Proxy.HttpErr h => Some h
  | _ => None
  end.

(** The four calls of one cycle: three writes and the flush. *)
Definition sse_frame (cursor data : string) : list Event :=
  [EWrite ("id: " ++ cursor ++ nl);
   EWrite ("event: sync" ++ nl);
   EWrite ("data: " ++ data ++ nl ++ nl);
   EFlush].

Definition sse_bytes (cursor data : string) : string :=
  ("id: " ++ cursor ++ nl) ++ ("event: sync" ++ nl)
  ++ ("data: " ++ data ++ nl ++ nl).

Definition cursor_key : string := "next_batch".

Definition non_cursor (ms : list (string * Json.value))
  : list (string * Json.value) :=
  filter (fun kv => negb (String.eqb (fst kv) cursor_key)) ms.

(** The [interface{}] fields of [SyncResponse]. *)
Definition is_iface_field (f : Json.Field) : bool :=
  match f with
  | Json.FDeviceOTKCount | Json.FNextBatch => false
  | _ => true
  end.

Definition get_iface (f : Json.Field) (r : Json.SyncResponse) : Json.iface :=
  match f with
  | Json.FAccountData => Json.AccountData r
  | Json.FToDevice => Json.ToDevice r
  | Json.FDeviceLists => Json.DeviceLists r
  | Json.FPresence => Json.Presence r
  | Json.FRooms => Json.Rooms r
  | Json.FGroups => Json.Groups r
  | _ => Json.INil
  end.

Definition field_eqb (f g : Json.Field) : bool :=
  match f, g with
  | Json.FAccountData, Json.FAccountData
  | Json.FToDevice, Json.FToDevice
  | Json.FDeviceLists, Json.FDeviceLists
  | Json.FPresence, Json.FPresence
  | Json.FRooms, Json.FRooms
  | Json.FGroups, Json.FGroups
  | Json.FDeviceOTKCount, Json.FDeviceOTKCount
  | Json.FNextBatch, Json.FNextBatch => true
  | _, _ => false
  end.

(** The value of the last member of the object whose key names field
    [f]; [null] when there is none. *)
Fixpoint lastValueFrom (f : Json.Field) (acc : Json.value)
    (ms : list (string * Json.value)) : Json.value :=
  match ms with
  | [] => acc
  | (k, v) :: ms' =>
      match Json.findField k with
      | Some f' =>
          if field_eqb f' f
          then lastValueFrom f v ms'
          else lastValueFrom f acc ms'
      | None => lastValueFrom f acc ms'
      end
  end.

Definition lastValue (f : Json.Field) (ms : list (string * Json.value))
  : Json.value :=
  lastValueFrom f Json.JNull ms.

(** *** Scenarios *)

Definition localhost : string := "http://localhost:8008/".

Definition forbidden : Proxy.HttpError :=
  {| Proxy.StatusCode := 403;
     Proxy.ContentType := "application/json";
     Proxy.Body := js "{'errcode':'M_FORBIDDEN','error':'no'}" |}.

Definition mkEnv (replies : list Proxy.SyncReply) (closed : list bool) : Env :=
  {| upstreamURL := localhost; compress := false; isFlusher := true;
     isCloseNotifier := true; upstream := replies;
     connectionExists := closed; upgradeOk := true;
     beyondJson := fun _ => inr Json.SyntaxError;
     bridge := []; bridgeReturns := true |}.

Definition mkReq (method : string) (hdr query : Http.Values) : Http.Request :=
  {| Http.Method := method; Http.Header := hdr; Http.Query := query |}.

(** A [POST] with a credential. *)
Definition reqPost : Http.Request :=
  mkReq "POST" [("Authorization", ["Bearer secret"])] [].

Definition reqHead : Http.Request :=
  mkReq "HEAD" [] [("access_token", ["tok"])].

(** A three-byte [Authorization] header next to an [access_token]. *)
Definition reqShort : Http.Request :=
  mkReq "GET" [("Authorization", ["abc"])] [("access_token", ["tok"])].

(** A bearer credential in the header and another one in the query. *)
Definition reqBearer : Http.Request :=
  mkReq "GET" [("Authorization", ["Bearer secret"])]
        [("access_token", ["tok"])].

(** A reconnecting event source: [last-event-id] next to [since]. *)
Definition reqReconnect : Http.Request :=
  mkReq "GET" [("Last-Event-Id", ["B1"])]
        [("access_token", ["tok"]); ("since", ["B2"])].

Definition reqPlain : Http.Request :=
  mkReq "GET" [] [("access_token", ["tok"])].

(** A payload with the cursor and one field the struct does not know. *)
Definition payloadCustom : string := js "{'next_batch':'s1','custom':1}".

(** A payload whose key count is an object, as homeservers send it. *)
Definition payloadKeyCounts : string :=
  js "{'device_one_time_keys_count':{'signed_curve25519':50},'next_batch':'s2'}".

Definition payloadRooms : string :=
  js "{'next_batch':'s3','rooms':{'join':{}},'presence':{'events':[]}}".

(** A computation only adds to the trace. *)
Definition extends {A} (c : M A) : Prop :=
  forall w, exists t, trace (snd (c w)) = (trace w ++ t)%list.

(** A computation leaves the trace free of events of one kind when it
    starts free of them. *)
Definition avoids {A} (p : Event -> bool) (c : M A) : Prop :=
  forall w, existsb p (trace w) = false ->
            existsb p (trace (snd (c w))) = false.

Definition is_read (e : Event) : bool :=
  match e with
  | EReadConnectionExists _ => true
  | _ => false
  end.

(** The calls on the response writer. *)
Definition is_writer_event (e : Event) : bool :=
  match e with
  | EHeaderSet _ _ | EWriteHeader _ | EWrite _ | EFlush => true
  | _ => false
  end.

(** A computation adds to the trace only events that satisfy [p]. *)
Definition emits {A} (p : Event -> bool) (c : M A) : Prop :=
  forall w, exists t,
    trace (snd (c w)) = (trace w ++ t)%list /\ forallb p t = true.

(** No read of [connectionExists] has come back false so far. *)
Definition Open (t : list Event) : Prop :=
  ~ In (EReadConnectionExists false) t.

(** Nothing follows a read of [connectionExists] that came back false. *)
Definition NoneAfterClosure (t : list Event) : Prop :=
  forall pre post,
    t = (pre ++ EReadConnectionExists false :: post)%list -> post = [].

(** Every read of [connectionExists] comes right after a flush. *)
Definition ReadsAfterFlush (t : list Event) : Prop :=
  forall pre b post,
    t = (pre ++ EReadConnectionExists b :: post)%list ->
    exists pre', pre = (pre' ++ [EFlush])%list.

(** The world after the three writes and the flush of one cycle. *)
Definition frameWorld (cursor data : string) (w : World) : World :=
  {| rw := rw_Flush
             (rw_Write ("data: " ++ data ++ nl ++ nl)
                (rw_Write ("event: sync" ++ nl)
                   (rw_Write ("id: " ++ cursor ++ nl) (rw w))));
     trace := trace w ++ sse_frame cursor data;
     reads := reads w |}.

(** The value the next read of [connectionExists] gives. *)
Definition nextRead (w : World) : bool :=
  match reads w with
  | [] => true
  | b :: _ => b
  end.

Definition readWorld (w : World) : World :=
  {| rw := rw w; trace := trace w ++ [EReadConnectionExists (nextRead w)];
     reads := tl (reads w) |}.

Definition emitWorld (e : Event) (w : World) : World :=
  {| rw := rw w; trace := trace w ++ [e]; reads := reads w |}.

(** The run ends open, or right after the read that found the connection
    closed, and then the handler has returned. *)
Definition Closing (r : res unit) (t : list Event) : Prop :=
  Open t
  \/ exists pre, t = (pre ++ [EReadConnectionExists false])%list
                 /\ Open pre /\ r = Val tt.

(** The session [serveEventSource] builds for a credential. *)
Definition eventClient (env : Env) (req : Http.Request) (tok : string)
  : Proxy.Client :=
  Proxy.set_NextSyncBatch (resolveCursor req)
    (Proxy.set_Presence (Http.Values_Get (Http.Query req) "presence")
       (Proxy.set_Filter (Http.Values_Get (Http.Query req) "filter")
          (Proxy.NewClient (upstreamURL env) tok))).

Definition eventHeader : list (string * string) :=
  [("Content-Type", "text/event-stream"); ("Cache-Control", "no-cache");
   ("Connection", "keep-alive"); ("Access-Control-Allow-Origin", "*")].

(** The world of [serveEventSource] when its first [Sync] call is out. *)
Definition eventStart (env : Env) (req : Http.Request) (tok : string)
  : World :=
  {| rw := {| header := eventHeader; wroteHeader := false; status := 0;
              sentHeader := []; body := EmptyString;
              flushedBody := EmptyString |};
     trace := [EHeaderSet "Content-Type" "text/event-stream";
               EHeaderSet "Cache-Control" "no-cache";
               EHeaderSet "Connection" "keep-alive";
               EHeaderSet "Access-Control-Allow-Origin" "*";
               ESync false (eventClient env req tok)];
     reads := connectionExists env |}.

(** The session [serveStream] builds for a credential. *)
Definition streamClient (env : Env) (req : Http.Request) (tok : string)
  : Proxy.Client :=
  Proxy.set_Filter (Http.Values_Get (Http.Query req) "filter")
    (Proxy.set_NextSyncBatch (Http.Values_Get (Http.Query req) "since")
       (Proxy.NewClient (upstreamURL env) tok)).

(** The world of [serveStream] when its [Sync] call is out: nothing has
    been written to the response. *)
Definition streamStart (env : Env) (req : Http.Request) (tok : string)
  : World :=
  {| rw := freshResponse;
     trace := [EUpdatePresence (streamClient env req tok)
                 (Http.Values_Get (Http.Query req) "presence");
               ESync false (streamClient env req tok)];
     reads := connectionExists env |}.

(** What [serveStream] does once the first payload is there. *)
Definition upgradeEvents (env : Env) (msg : string) : list Event :=
  EUpgrade ["m.json"] (compress env) (upgradeOk env)
  :: (if upgradeOk env
      then [EEnableWriteCompression (compress env); ESendMessage msg; EStart]
           ++ bridge env
      else []).

(** The trace ends with the three calls by which [handleHttpError]
    relays [h]. *)
Definition relayed_in (t : list Event) (h : Proxy.HttpError) : Prop :=
  exists pre,
    t = (pre ++ [EHeaderSet "Content-Type" (Proxy.ContentType h);
                 EWriteHeader (Proxy.StatusCode h);
                 EWrite (Proxy.Body h)])%list.

(** The sentence on relayed failures as the specification has it, for
    [/events]: whenever the handler relays a classified failure, the
    response carries its status, content type and body. *)
Definition every_failure_relayed (env : Env) (req : Http.Request) : Prop :=
  forall h,
    relayed_in (trace (snd (run (serveEventSource env req) env))) h ->
    relays h (rw (snd (run (serveEventSource env req) env))).

(** The response to an error outside the two relayed kinds. *)
Definition genericFailure (r : ResponseWriter) : Prop :=
  status r = Http.StatusInternalServerError
  /\ contentType r = Some "text/plain; charset=utf-8"
  /\ body r = "Internal Server Error" ++ nl.

(** What relaying an error writes as body. *)
Definition relayedBody (e : Proxy.GoError) : string :=
  match classified e with
  | Some h => Proxy.Body h
  | None => "Internal Server Error" ++ nl
  end.

(** The status of a relayed error is one the response writer accepts and
    sends a body under: three digits, not 1xx, 204 or 304. *)
Definition relayable (e : Proxy.GoError) : bool :=
  match classified e with
  | Some h =>
      validStatus (Proxy.StatusCode h)
      && bodyAllowedForStatus (Proxy.StatusCode h)
  | None => true
  end.

(** A first payload, then a refusal by the homeserver. *)
Definition envLate : Env :=
  mkEnv [Proxy.SyncOk payloadRooms "s3";
         Proxy.SyncErr (Proxy.MatrixError forbidden "M_FORBIDDEN" "no")] [].

(** A refusal of the initial sync. *)
Definition envRefused : Env :=
  mkEnv [Proxy.SyncErr (Proxy.MatrixError forbidden "M_FORBIDDEN" "no")] [].

(** One payload, and the client gone when the frame is out. *)
Definition envClosed : Env := mkEnv [Proxy.SyncOk payloadRooms "s3"] [false].

Definition envKeyCounts : Env :=
  mkEnv [Proxy.SyncOk payloadKeyCounts "s2"] [false].

(** The sentence on the rewritten payload as the specification has it: of
    an object, the data sent has the fields other than the cursor, each
    with its value, and no other field. *)
Definition rewrite_keeps_fields (input : string) : Prop :=
  forall ms,
    Json.parse input = Json.Ok (Json.JObject ms) ->
    exists out outms,
      PopNextBatch input = Json.Ok out
      /\ Json.parse out = Json.Ok (Json.JObject outms)
      /\ (forall k v, In (k, v) (non_cursor ms) -> In (k, v) outms)
      /\ (forall k, In k (map fst outms) -> In k (map fst (non_cursor ms))).

(** The names of the fields of [SyncResponse] other than the cursor. *)
Definition schema_names : list string :=
  ["account_data"; "to_device"; "device_lists"; "presence"; "rooms";
   "groups"; "device_one_time_keys_count"].

(** The data line of a frame holds a JSON document. *)
Definition carries_json (line : string) : Prop :=
  exists j v, line = "data: " ++ j ++ nl ++ nl /\ Json.parse j = Json.Ok v.

(** The sentence on the frame as the specification has it: what is
    written right before a flush is a data line that holds the rewritten
    JSON payload. *)
Definition every_frame_carries_json (env : Env) (req : Http.Request) : Prop :=
  forall pre data post,
    trace (snd (run (serveEventSource env req) env))
    = (pre ++ EWrite data :: EFlush :: post)%list ->
    carries_json data.

(** The session after the first payload of [envClosed]. *)
Definition clientS3 : Proxy.Client :=
  Proxy.set_NextSyncBatch "s3" (eventClient envClosed reqPlain "tok").

(** What [PopNextBatch] makes of [payloadRooms]. *)
Definition rewrittenRooms : string :=
  js "{'account_data':null,'to_device':null,'device_lists':null,'presence':{'events':[]},'rooms':{'join':{}},'groups':null,'device_one_time_keys_count':0,'next_batch':''}".

(* ===================================================================== *)
(** ** Further vocabulary: the handlers beyond the specification *)
(* ===================================================================== *)

(** A response writer that cannot flush. *)
Definition envNoFlush : Env :=
  {| upstreamURL := localhost; compress := false; isFlusher := false;
     isCloseNotifier := true;
     upstream := [Proxy.SyncOk payloadRooms "s3"];
     connectionExists := []; upgradeOk := true;
     beyondJson := fun _ => inr Json.SyntaxError;
     bridge := []; bridgeReturns := true |}.

(** A transport failure that carries no status. *)
Definition noStatus : Proxy.HttpError :=
  {| Proxy.StatusCode := 0; Proxy.ContentType := EmptyString;
     Proxy.Body := EmptyString |}.

Definition envNoStatus : Env := mkEnv [Proxy.SyncErr (Proxy.HttpErr noStatus)] [].

(** Two payloads, the first of which [PopNextBatch] rejects. *)
Definition envRejected : Env :=
  mkEnv [Proxy.SyncOk payloadKeyCounts "s2"; Proxy.SyncOk payloadRooms "s3"] [].

(** The events of a trace before the bridge is started. *)
Fixpoint before_start (t : list Event) : list Event :=
  match t with
  | [] => []
  | EStart :: _ => []
  | e :: t' => e :: before_start t'
  end.

(** A bridge that polls the upstream three times and returns. *)
Definition envBridge : Env :=
  {| upstreamURL := localhost; compress := true; isFlusher := true;
     isCloseNotifier := true;
     upstream := [Proxy.SyncOk payloadRooms "s3"];
     connectionExists := []; upgradeOk := true;
     beyondJson := fun _ => inr Json.SyntaxError;
     bridge := [ESync true (Proxy.set_NextSyncBatch "s3"
                              (Proxy.NewClient localhost "tok"));
                ESendMessage payloadRooms;
                ESync true (Proxy.set_NextSyncBatch "s4"
                              (Proxy.NewClient localhost "tok"));
                ESync true (Proxy.set_NextSyncBatch "s5"
                              (Proxy.NewClient localhost "tok"))];
     bridgeReturns := true |}.

(** The bytes of the event stream for the replies of the upstream, while
    the connection is there: for each payload a frame with the cursor
    that came with it and what [PopNextBatch] made of it, up to the first
    failure, whose body ends the stream. *)
Fixpoint streamBytes (env : Env) (replies : list Proxy.SyncReply) : string :=
  match replies with
  | [] => EmptyString
  | Proxy.SyncOk content next :: replies' =>
      sse_bytes next (fst (callPopNextBatch env content))
      ++ streamBytes env replies'
  | Proxy.SyncErr e :: _ => relayedBody e
  end.

(** No read of [connectionExists] finds the connection closed. *)
Definition stays (closed : list bool) : bool := forallb (fun b => b) closed.

(** A payload with a fraction, which the model of [encoding/json] does
    not decode, and what [PopNextBatch] returns on it. *)
Definition payloadFraction : string := js "{'rooms':1.5,'next_batch':'s9'}".

Definition rewrittenFraction : string :=
  js "{'account_data':null,'to_device':null,'device_lists':null,'presence':null,'rooms':1.5,'groups':null,'device_one_time_keys_count':0,'next_batch':''}".

Definition envFraction : Env :=
  {| upstreamURL := localhost; compress := false; isFlusher := true;
     isCloseNotifier := true;
     upstream := [Proxy.SyncOk payloadFraction "s9"];
     connectionExists := [true]; upgradeOk := true;
     beyondJson := fun _ => inl rewrittenFraction;
     bridge := []; bridgeReturns := true |}.

(** The [Sync] calls of a trace. *)
Definition count_syncs (t : list Event) : nat := length (filter is_sync t).

(** The successful replies before the first failed one. *)
Fixpoint leading_ok (replies : list Proxy.SyncReply) : nat :=
  match replies with
  | Proxy.SyncOk _ _ :: replies' => S (leading_ok replies')
  | _ => 0
  end.

Definition is_poll (e : Event) : bool :=
  match e with
  | ESync true _ => true
  | _ => false
  end.

(** Every [Sync(true)] comes right after a frame whose id line has the
    cursor of the call's session, and a read of [connectionExists] that
    found the connection there. *)
Definition PollsAfterFrame (t : list Event) : Prop :=
  forall pre c post,
    t = (pre ++ ESync true c :: post)%list ->
    exists pre' data,
      pre = (pre' ++ sse_frame (Proxy.NextSyncBatch c) data
             ++ [EReadConnectionExists true])%list.


(** The values the decoder stores into a field without a type error:
    any value into an [interface{}]; [null] or an integer of 64 bits into
    the [int]; [null] or a string into the [string]. *)
Definition fits (f : Json.Field) (v : Json.value) : bool :=
  match f, v with
  | Json.FDeviceOTKCount, Json.JNull => true
  | Json.FDeviceOTKCount, Json.JNumber n => Json.int64_range n
  | Json.FDeviceOTKCount, _ => false
  | Json.FNextBatch, Json.JNull => true
  | Json.FNextBatch, Json.JString _ => true
  | Json.FNextBatch, _ => false
  | _, _ => true
  end.



(** What [PopNextBatch] writes last. *)
Definition cursor_member : string := js ",'next_batch':''}".




(** The values whose numbers are float64 values printed back digit for
    digit: those the model decodes into an [interface{}]. *)
Fixpoint exact_value (v : Json.value) : bool :=
  match v with
  | Json.JNumber n => Json.exact_float n
  | Json.JArray vs => forallb exact_value vs
  | Json.JObject ms => forallb (fun kv => exact_value (snd kv)) ms
  | _ => true
  end.

(* ===================================================================== *)
(** ** Lemmas on strings *)
(* ===================================================================== *)

Lemma substring_length_le (s : string) :
  forall m n, String.length (substring m n s) <= n.
Proof.
  induction s as [|c s IH]; intros [|m] [|n]; simpl; auto with arith.
Qed.

Lemma prefix_length (p : string) :
  forall s, String.prefix p s = true -> String.length p <= String.length s.
Proof.
  induction p as [|a p IH]; intros [|b s] H; simpl in *;
    try discriminate; auto with arith.
  destruct (ascii_dec a b); [|discriminate].
  apply le_n_S, IH, H.
Qed.

Lemma is_empty_length (s : string) :
  GoString.is_empty s = false <-> 0 < String.length s.
Proof.
  destruct s; simpl; split; intros H; try discriminate; try lia; reflexivity.
Qed.

(** The comparison of [accessToken[0:6]] with the seven bytes of
    ["Bearer "] never holds. *)
Lemma six_bytes_never_Bearer (s pre : string) :
  GoString.slice s 0 6 = Some pre -> String.eqb pre "Bearer " = false.
Proof.
  unfold GoString.slice. intros H.
  destruct ((0 <=? 6) && (6 <=? String.length s))%nat; [|discriminate].
  injection H as <-. apply String.eqb_neq. intros E.
  change (6 - 0) with 6 in E.
  pose proof (substring_length_le s 0 6) as L.
  rewrite E in L. simpl in L. lia.
Qed.

(** With six bytes or more in the header, the credential is the header
    as it came. *)
Lemma resolveAccessToken_long (req : Http.Request) (w : World) :
  6 <= String.length (authorization req) ->
  resolveAccessToken req w = (Val (authorization req), w).
Proof.
  intros L. unfold resolveAccessToken. fold (authorization req).
  assert (E : GoString.is_empty (authorization req) = false)
    by (apply is_empty_length; lia).
  rewrite E. cbn [negb].
  destruct (GoString.slice (authorization req) 0 6) as [pre|] eqn:S6.
  - rewrite (six_bytes_never_Bearer _ _ S6). reflexivity.
  - unfold GoString.slice in S6.
    apply Nat.leb_le in L. rewrite L in S6. discriminate.
Qed.

(** With one to five bytes in the header, the slice is out of range. *)
Lemma resolveAccessToken_short (req : Http.Request) (w : World) :
  0 < String.length (authorization req) < 6 ->
  resolveAccessToken req w = (Panic "slice bounds out of range", w).
Proof.
  intros [L0 L6]. unfold resolveAccessToken. fold (authorization req).
  assert (E : GoString.is_empty (authorization req) = false)
    by (apply is_empty_length; lia).
  rewrite E. cbn [negb]. unfold GoString.slice.
  assert (F : (6 <=? String.length (authorization req))%nat = false)
    by (apply Nat.leb_gt; lia).
  rewrite F. reflexivity.
Qed.

Lemma resolveAccessToken_empty (req : Http.Request) (w : World) :
  authorization req = EmptyString ->
  resolveAccessToken req w = (Val (access_token req), w).
Proof.
  intros E. unfold resolveAccessToken. fold (authorization req).
  rewrite E. reflexivity.
Qed.

Lemma resolveAccessToken_ok (req : Http.Request) (w : World) :
  token_resolves req = true ->
  exists tok, resolveAccessToken req w = (Val tok, w).
Proof.
  unfold token_resolves. intros H. apply orb_true_iff in H as [H|H].
  - exists (access_token req). apply resolveAccessToken_empty.
    destruct (authorization req); [reflexivity|discriminate].
  - exists (authorization req). apply resolveAccessToken_long.
    apply Nat.leb_le, H.
Qed.

(* ===================================================================== *)
(** ** The response writer and the trace *)
(* ===================================================================== *)

Lemma Write_run (b : string) (w : World) :
  Write b w = (Val tt, {| rw := rw_Write b (rw w);
                          trace := trace w ++ [EWrite b];
                          reads := reads w |}).
Proof. reflexivity. Qed.

Lemma HeaderSet_run (k v : string) (w : World) :
  HeaderSet k v w = (Val tt, {| rw := rw_HeaderSet k v (rw w);
                                trace := trace w ++ [EHeaderSet k v];
                                reads := reads w |}).
Proof. reflexivity. Qed.

Lemma Flush_run (w : World) :
  Flush w = (Val tt, {| rw := rw_Flush (rw w);
                        trace := trace w ++ [EFlush];
                        reads := reads w |}).
Proof. reflexivity. Qed.

Lemma WriteHeader_run (code : Z) (w : World) :
  WriteHeader code w =
  if wroteHeader (rw w) then
    (Val tt, {| rw := rw w; trace := trace w ++ [EWriteHeader code];
                reads := reads w |})
  else if validStatus code then
    (Val tt, {| rw := writeHeaderNow code (rw w);
                trace := trace w ++ [EWriteHeader code];
                reads := reads w |})
  else
    (Panic "invalid WriteHeader code",
     {| rw := rw w; trace := trace w ++ [EWriteHeader code];
        reads := reads w |}).
Proof.
  unfold WriteHeader, bind, emit, getRW, putRW, ret, panic; simpl.
  destruct (wroteHeader (rw w)); [reflexivity|].
  destruct (validStatus code); reflexivity.
Qed.

Lemma extends_ret {A} (a : A) : extends (ret a).
Proof. intros w. exists []. simpl. now rewrite app_nil_r. Qed.

Lemma extends_bind {A B} (c : M A) (f : A -> M B) :
  extends c -> (forall a, extends (f a)) -> extends (bind c f).
Proof.
  intros Hc Hf w. unfold bind. destruct (Hc w) as [t Ht].
  destruct (c w) as [[a| |] w']; simpl in Ht.
  - destruct (Hf a w') as [t' Ht']. exists (t ++ t')%list.
    now rewrite Ht', Ht, app_assoc.
  - now exists t.
  - now exists t.
Qed.

Lemma extends_emit (e : Event) : extends (emit e).
Proof. intros w. now exists [e]. Qed.

Lemma extends_stop {A} (r : res A) : extends (fun w => (r, w)).
Proof. intros w. exists []. simpl. now rewrite app_nil_r. Qed.

Lemma extends_Write (b : string) : extends (Write b).
Proof. intros w. now exists [EWrite b]. Qed.

Lemma extends_HeaderSet (k v : string) : extends (HeaderSet k v).
Proof. intros w. now exists [EHeaderSet k v]. Qed.

Lemma extends_Flush : extends Flush.
Proof. intros w. now exists [EFlush]. Qed.

Lemma extends_WriteHeader (code : Z) : extends (WriteHeader code).
Proof.
  intros w. exists [EWriteHeader code]. rewrite WriteHeader_run.
  destruct (wroteHeader (rw w)); [reflexivity|].
  destruct (validStatus code); reflexivity.
Qed.

Lemma extends_read : extends readConnectionExists.
Proof.
  intros w. now exists [EReadConnectionExists
                          match reads w with [] => true | b :: _ => b end].
Qed.

Create HintDb trace.
#[local] Hint Resolve extends_ret extends_emit extends_stop extends_Write
  extends_HeaderSet extends_Flush extends_WriteHeader extends_read : trace.

Ltac extends_steps :=
  repeat (first [ solve [auto with trace] | apply extends_bind; [|intros ?] ]).

Lemma extends_http_Error (error : string) (code : Z) :
  extends (http_Error error code).
Proof. unfold http_Error. extends_steps. Qed.

Lemma extends_handleHttpError (h : Proxy.HttpError) :
  extends (handleHttpError h).
Proof. unfold handleHttpError. extends_steps. Qed.

Lemma extends_relayError (e : Proxy.GoError) : extends (relayError e).
Proof.
  destruct e; cbn [relayError];
    [ apply extends_handleHttpError | apply extends_handleHttpError
    | apply extends_http_Error | apply extends_http_Error ].
Qed.

Lemma extends_eventLoop (env : Env) (upstream : list Proxy.SyncReply) :
  forall client content err,
    extends (eventLoop env upstream client content err).
Proof.
  induction upstream as [|reply upstream IH]; intros client content [e|];
    simpl; try apply extends_relayError.
  - extends_steps. destruct (negb _); extends_steps.
    unfold blocked. auto with trace.
  - extends_steps. destruct (negb _); extends_steps.
    destruct (Proxy.afterSync reply client) as [client' result]. apply IH.
Qed.

(* ===================================================================== *)
(** ** The method check *)
(* ===================================================================== *)

(** C8.  A request to [/events] or to [/stream] whose method is not GET
    is answered with status 405, and the handler writes the text of that
    status, which is the body the server sends unless the method is HEAD,
    when it sends none; the handler returns without a call to the
    upstream, be it [Sync] or [UpdatePresence]. *)
Theorem non_GET_rejected (env : Env) (req : Http.Request) :
  is_GET req = false ->
  forall handler, handler = serveEventSource \/ handler = serveStream ->
  exists w, run (handler env req) env = (Val tt, w)
    /\ status (rw w) = Http.StatusMethodNotAllowed
    /\ body (rw w) = "Method Not Allowed" ++ nl
    /\ filter is_upstream_call (trace w) = []
    /\ wireBody req (rw w)
       = (if String.eqb (Http.Method req) "HEAD" then EmptyString
          else "Method Not Allowed" ++ nl).
Proof.
  intros H handler [-> | ->]; unfold run, serveEventSource, serveStream;
    fold (is_GET req); rewrite H; cbn [negb];
    eexists; (split; [reflexivity|]); repeat split.
Qed.

Lemma non_GET_rejected_witness :
  (exists w,
      run (serveStream (mkEnv [] []) reqPost) (mkEnv [] []) = (Val tt, w)
      /\ status (rw w) = Http.StatusMethodNotAllowed
      /\ body (rw w) = "Method Not Allowed" ++ nl
      /\ filter is_upstream_call (trace w) = []
      /\ wireBody reqPost (rw w) = "Method Not Allowed" ++ nl)
  /\ (exists w,
        run (serveEventSource (mkEnv [] []) reqHead) (mkEnv [] [])
        = (Val tt, w)
        /\ status (rw w) = Http.StatusMethodNotAllowed
        /\ body (rw w) = "Method Not Allowed" ++ nl
        /\ filter is_upstream_call (trace w) = []
        /\ wireBody reqHead (rw w) = EmptyString).
Proof.
  split.
  - apply (non_GET_rejected (mkEnv [] []) reqPost eq_refl serveStream).
    right. reflexivity.
  - apply (non_GET_rejected (mkEnv [] []) reqHead eq_refl serveEventSource).
    left. reflexivity.
Defined.

(* ===================================================================== *)
(** ** Credential and cursor *)
(* ===================================================================== *)

(** C9.  Evaluation at the failing input: a header of one to five bytes
    makes [accessToken[0:6]] a slice out of range; credential resolution
    panics and leaves response and trace untouched. *)
Theorem short_authorization_panics (req : Http.Request) (w : World) :
  0 < String.length (authorization req) < 6 ->
  resolveAccessToken req w = (Panic "slice bounds out of range", w).
Proof. apply resolveAccessToken_short. Qed.

Lemma short_authorization_panics_witness :
  resolveAccessToken reqShort (initWorld (mkEnv [] []))
  = (Panic "slice bounds out of range", initWorld (mkEnv [] [])).
Proof.
  apply (short_authorization_panics reqShort (initWorld (mkEnv [] []))).
  simpl. lia.
Defined.

(** C4.  Evaluation at the failing input: with the header [abc] and the
    parameter [access_token=tok], neither handler resolves a credential;
    both panic before any call to the upstream and before any write. *)
Theorem short_header_resolves_nothing :
  run (serveEventSource (mkEnv [] []) reqShort) (mkEnv [] [])
  = (Panic "slice bounds out of range", initWorld (mkEnv [] []))
  /\ run (serveStream (mkEnv [] []) reqShort) (mkEnv [] [])
     = (Panic "slice bounds out of range", initWorld (mkEnv [] [])).
Proof. split; reflexivity. Qed.

(** C10.  A header that begins with [Bearer ] is the credential as it
    came, prefix included: the six bytes [accessToken[0:6]] never equal
    the seven bytes of the literal, so the branch that would strip the
    prefix is not taken. *)
Theorem bearer_prefix_kept (req : Http.Request) (w : World) :
  String.prefix "Bearer " (authorization req) = true ->
  7 <= String.length (authorization req)
  /\ resolveAccessToken req w = (Val (authorization req), w)
  /\ forall s pre, GoString.slice s 0 6 = Some pre ->
                   String.eqb pre "Bearer " = false.
Proof.
  intros H. apply prefix_length in H. simpl in H.
  split; [exact H|]. split.
  - apply resolveAccessToken_long. lia.
  - apply six_bytes_never_Bearer.
Qed.

Lemma bearer_prefix_kept_witness :
  7 <= String.length (authorization reqBearer)
  /\ resolveAccessToken reqBearer (initWorld (mkEnv [] []))
     = (Val "Bearer secret", initWorld (mkEnv [] []))
  /\ forall s pre, GoString.slice s 0 6 = Some pre ->
                   String.eqb pre "Bearer " = false.
Proof.
  apply (bearer_prefix_kept reqBearer (initWorld (mkEnv [] [])) eq_refl).
Defined.

Lemma bind_val {A B} (c : M A) (f : A -> M B) (w w' : World) (a : A) :
  c w = (Val a, w') -> bind c f w = f a w'.
Proof. intros H. unfold bind. now rewrite H. Qed.

(** C3.  On [/events] the session of the first [Sync] call has the value
    of the [last-event-id] header as its cursor when the header gives
    one, and the [since] parameter only when the header is absent or
    empty. *)
Theorem reconnect_header_before_since (env : Env) (req : Http.Request) :
  is_GET req = true ->
  streams env = true ->
  token_resolves req = true ->
  exists c,
    first_sync (trace (snd (run (serveEventSource env req) env)))
    = Some (false, c)
    /\ (lastEventId req <> EmptyString ->
        Proxy.NextSyncBatch c = lastEventId req)
    /\ (lastEventId req = EmptyString ->
        Proxy.NextSyncBatch c = since req).
Proof.
  intros HG HS HT. apply andb_true_iff in HS as [HF HC].
  destruct (resolveAccessToken_ok req (initWorld env) HT) as [tok Htok].
  unfold run, serveEventSource. fold (is_GET req).
  rewrite HG, HF, HC. cbn [negb].
  rewrite (bind_val _ _ _ _ _ Htok).
  set (client := Proxy.set_NextSyncBatch (resolveCursor req) _).
  exists client. split; [|split].
  - repeat (rewrite (bind_val _ _ _ _ _ (HeaderSet_run _ _ _))).
    unfold bind at 1, emit at 1.
    destruct (upstream env) as [|reply rest].
    + reflexivity.
    + destruct (Proxy.afterSync reply client) as [client' result].
      match goal with
      | |- context [eventLoop ?en ?u ?c ?x ?e ?w0] =>
          destruct (extends_eventLoop en u c x e w0) as [t Ht]; rewrite Ht
      end.
      reflexivity.
  - intros NE. unfold client, resolveCursor. simpl. fold (lastEventId req).
    destruct (lastEventId req); [congruence|reflexivity].
  - intros E. unfold client, resolveCursor. simpl. fold (lastEventId req).
    rewrite E. reflexivity.
Qed.

Lemma reconnect_header_before_since_witness :
  exists c,
    first_sync (trace (snd (run (serveEventSource (mkEnv [] []) reqReconnect)
                                (mkEnv [] []))))
    = Some (false, c)
    /\ (lastEventId reqReconnect <> EmptyString ->
        Proxy.NextSyncBatch c = lastEventId reqReconnect)
    /\ (lastEventId reqReconnect = EmptyString ->
        Proxy.NextSyncBatch c = since reqReconnect).
Proof.
  apply (reconnect_header_before_since (mkEnv [] []) reqReconnect
           eq_refl eq_refl eq_refl).
Defined.

(* ===================================================================== *)
(** ** What the writer operations add to the trace *)
(* ===================================================================== *)

Lemma emits_weaken {A} (p q : Event -> bool) (c : M A) :
  (forall e, p e = true -> q e = true) -> emits p c -> emits q c.
Proof.
  intros Hpq Hc w. destruct (Hc w) as [t [Ht Hp]]. exists t. split; [exact Ht|].
  rewrite forallb_forall in *. auto.
Qed.

Lemma emits_extends {A} (p : Event -> bool) (c : M A) :
  emits p c -> extends c.
Proof. intros Hc w. destruct (Hc w) as [t [Ht _]]. now exists t. Qed.

Lemma emits_stop {A} (p : Event -> bool) (r : res A) :
  emits p (fun w => (r, w)).
Proof. intros w. exists []. simpl. now rewrite app_nil_r. Qed.

Lemma emits_bind {A B} (p : Event -> bool) (c : M A) (f : A -> M B) :
  emits p c -> (forall a, emits p (f a)) -> emits p (bind c f).
Proof.
  intros Hc Hf w. unfold bind. destruct (Hc w) as [t [Ht Hp]].
  destruct (c w) as [[a| |] w']; simpl in Ht; try (now exists t).
  destruct (Hf a w') as [t' [Ht' Hp']]. exists (t ++ t')%list. split.
  - now rewrite Ht', Ht, app_assoc.
  - rewrite forallb_app, Hp, Hp'. reflexivity.
Qed.

Lemma emits_emit (p : Event -> bool) (e : Event) :
  p e = true -> emits p (emit e).
Proof. intros H w. exists [e]. simpl. now rewrite H. Qed.

Lemma emits_writer_HeaderSet (k v : string) :
  emits is_writer_event (HeaderSet k v).
Proof. intros w. now exists [EHeaderSet k v]. Qed.

Lemma emits_writer_Write (b : string) : emits is_writer_event (Write b).
Proof. intros w. now exists [EWrite b]. Qed.

Lemma emits_writer_WriteHeader (code : Z) :
  emits is_writer_event (WriteHeader code).
Proof.
  intros w. exists [EWriteHeader code]. rewrite WriteHeader_run.
  destruct (wroteHeader (rw w)); [now split|].
  destruct (validStatus code); now split.
Qed.

Ltac writer_steps :=
  repeat (first [ apply emits_writer_HeaderSet
                | apply emits_writer_Write
                | apply emits_writer_WriteHeader
                | apply emits_bind; [|intros ?] ]).

Lemma emits_writer_http_Error (error : string) (code : Z) :
  emits is_writer_event (http_Error error code).
Proof.
  unfold http_Error. writer_steps.
Qed.

Lemma emits_writer_handleHttpError (h : Proxy.HttpError) :
  emits is_writer_event (handleHttpError h).
Proof.
  unfold handleHttpError. writer_steps.
Qed.

(** Relaying an error only calls the response writer. *)
Lemma emits_writer_relayError (e : Proxy.GoError) :
  emits is_writer_event (relayError e).
Proof.
  destruct e; cbn [relayError];
    [ apply emits_writer_handleHttpError | apply emits_writer_handleHttpError
    | apply emits_writer_http_Error | apply emits_writer_http_Error ].
Qed.

Lemma resolveAccessToken_world (req : Http.Request) (w : World) :
  snd (resolveAccessToken req w) = w.
Proof.
  unfold resolveAccessToken.
  destruct (negb _); [|reflexivity].
  destruct (GoString.slice _ 0 6); [|reflexivity].
  destruct (String.eqb _ _); [|reflexivity].
  destruct (GoString.slice _ 7 _); reflexivity.
Qed.

(* ===================================================================== *)
(** ** Closure of the connection *)
(* ===================================================================== *)

Lemma Open_nil : Open [].
Proof. intros []. Qed.

Lemma Open_snoc (t : list Event) (e : Event) :
  Open t -> e <> EReadConnectionExists false -> Open (t ++ [e]).
Proof.
  intros Ht He H. apply in_app_or in H as [H|[H|[]]]; [now apply Ht|].
  now apply He.
Qed.

Lemma Open_app (t t' : list Event) :
  Open t -> forallb is_writer_event t' = true -> Open (t ++ t').
Proof.
  intros Ht Hw H. apply in_app_or in H as [H|H]; [now apply Ht|].
  rewrite forallb_forall in Hw. specialize (Hw _ H). discriminate.
Qed.

Lemma Open_NoneAfterClosure (t : list Event) : Open t -> NoneAfterClosure t.
Proof.
  intros Ht pre post E. exfalso. apply Ht. rewrite E.
  apply in_or_app. right. now left.
Qed.

Lemma closed_NoneAfterClosure (t : list Event) :
  Open t -> NoneAfterClosure (t ++ [EReadConnectionExists false]).
Proof.
  intros Ht pre post E.
  destruct post as [|x post] using rev_ind; [reflexivity|]. exfalso.
  clear IHpost.
  change (pre ++ EReadConnectionExists false :: post ++ [x])%list
    with (pre ++ (EReadConnectionExists false :: post) ++ [x])%list in E.
  rewrite app_assoc in E. apply app_inj_tail in E as [E _].
  apply Ht. rewrite E. apply in_or_app. right. now left.
Qed.

Lemma ReadsAfterFlush_nil : ReadsAfterFlush [].
Proof. intros pre b post E. now destruct pre. Qed.

Lemma ReadsAfterFlush_snoc (t : list Event) (e : Event) :
  ReadsAfterFlush t -> is_read e = false -> ReadsAfterFlush (t ++ [e]).
Proof.
  intros Ht He pre b post E.
  destruct post as [|x post] using rev_ind.
  - apply app_inj_tail in E as [_ ->]. discriminate.
  - clear IHpost.
    change (pre ++ EReadConnectionExists b :: post ++ [x])%list
      with (pre ++ (EReadConnectionExists b :: post) ++ [x])%list in E.
    rewrite app_assoc in E. apply app_inj_tail in E as [E _].
    exact (Ht _ _ _ E).
Qed.

Lemma ReadsAfterFlush_app (t' : list Event) :
  forall t, ReadsAfterFlush t -> forallb is_writer_event t' = true ->
            ReadsAfterFlush (t ++ t').
Proof.
  induction t' as [|e t' IH]; intros t Ht Hw.
  - now rewrite app_nil_r.
  - simpl in Hw. apply andb_true_iff in Hw as [He Hw].
    change (t ++ e :: t')%list with (t ++ [e] ++ t')%list.
    rewrite app_assoc. apply IH; [|exact Hw].
    apply ReadsAfterFlush_snoc; [exact Ht|]. now destruct e.
Qed.

Lemma ReadsAfterFlush_read (t : list Event) (b : bool) :
  ReadsAfterFlush (t ++ [EFlush]) ->
  ReadsAfterFlush ((t ++ [EFlush]) ++ [EReadConnectionExists b]).
Proof.
  intros Ht pre b' post E.
  destruct post as [|x post] using rev_ind.
  - apply app_inj_tail in E as [E _]. now exists t.
  - clear IHpost.
    change (pre ++ EReadConnectionExists b' :: post ++ [x])%list
      with (pre ++ (EReadConnectionExists b' :: post) ++ [x])%list in E.
    rewrite app_assoc in E. apply app_inj_tail in E as [E _].
    exact (Ht _ _ _ E).
Qed.

Lemma callPopNextBatch_Ok (env : Env) (content out : string) :
  PopNextBatch content = Json.Ok out ->
  callPopNextBatch env content = (out, None).
Proof. intros H. unfold callPopNextBatch. now rewrite H. Qed.

Lemma callPopNextBatch_Fail (env : Env) (content : string) (e : Json.error) :
  PopNextBatch content = Json.Fail e ->
  callPopNextBatch env content = (EmptyString, Some (Proxy.JsonError e)).
Proof. intros H. unfold callPopNextBatch. now rewrite H. Qed.

(** One iteration of the loop, entered without an error. *)
Lemma eventLoop_cycle (env : Env) (upstream : list Proxy.SyncReply)
    (client : Proxy.Client) (content : string) (w : World) :
  eventLoop env upstream client content None w =
  let data := fst (callPopNextBatch env content) in
  let w1 := frameWorld (Proxy.NextSyncBatch client) data w in
  if nextRead w1 then
    let w3 := emitWorld (ESync true client) (readWorld w1) in
    match upstream with
    | [] => (Blocked, w3)
    | reply :: upstream' =>
        eventLoop env upstream' (fst (Proxy.afterSync reply client))
          (fst (snd (Proxy.afterSync reply client)))
          (snd (snd (Proxy.afterSync reply client))) w3
    end
  else (Val tt, readWorld w1).
Proof.
  destruct upstream as [|reply upstream]; cbn [eventLoop]; cbv zeta;
    rewrite (bind_val _ _ _ _ _ (Write_run _ _));
    rewrite (bind_val _ _ _ _ _ (Write_run _ _));
    rewrite (bind_val _ _ _ _ _ (Write_run _ _));
    rewrite (bind_val _ _ _ _ _ (Flush_run _));
    unfold bind at 1, readConnectionExists at 1;
    unfold frameWorld, readWorld, emitWorld, nextRead, sse_frame;
    cbn [rw trace reads];
    rewrite <- !app_assoc; cbn [app];
    destruct (reads w) as [|[|] rest]; cbn [negb tl];
    try reflexivity;
    unfold bind, emit, blocked; cbn [rw trace reads];
    rewrite <- ?app_assoc; cbn [app];
    try reflexivity;
    destruct (Proxy.afterSync reply client) as [client' result];
    reflexivity.
Qed.

Lemma sse_frame_writer (cursor data : string) :
  forallb is_writer_event (sse_frame cursor data) = true.
Proof. reflexivity. Qed.

Lemma sse_frame_flush (cursor data : string) :
  exists t, sse_frame cursor data = (t ++ [EFlush])%list.
Proof.
  now exists [EWrite ("id: " ++ cursor ++ nl); EWrite ("event: sync" ++ nl);
              EWrite ("data: " ++ data ++ nl ++ nl)].
Qed.

Lemma Closing_open (r : res unit) (t : list Event) : Open t -> Closing r t.
Proof. now left. Qed.

(** The loop keeps both invariants of the trace. *)
Lemma eventLoop_closure (env : Env) (upstream : list Proxy.SyncReply) :
  forall client content err w,
    Open (trace w) -> ReadsAfterFlush (trace w) ->
    Closing (fst (eventLoop env upstream client content err w))
            (trace (snd (eventLoop env upstream client content err w)))
    /\ ReadsAfterFlush (trace (snd (eventLoop env upstream client content err w))).
Proof.
  induction upstream as [|reply upstream IH]; intros client content err w HO HR.
  all: destruct err as [e|];
    [ cbn [eventLoop];
      destruct (emits_writer_relayError e w) as [t [-> Hw]];
      split; [apply Closing_open, Open_app|apply ReadsAfterFlush_app]; assumption
    | ].
  all: rewrite eventLoop_cycle.
  all: assert (HO1 : forall d, Open (trace (frameWorld (Proxy.NextSyncBatch client) d w)))
         by (intros d; apply Open_app; [exact HO|apply sse_frame_writer]).
  all: assert (HR1 : forall d, ReadsAfterFlush
                     (trace (frameWorld (Proxy.NextSyncBatch client) d w)))
         by (intros d; apply ReadsAfterFlush_app;
             [exact HR|apply sse_frame_writer]).
  all: assert (HR2 : forall d, ReadsAfterFlush
                     (trace (readWorld (frameWorld (Proxy.NextSyncBatch client) d w))))
         by (intros d; generalize (HR1 d); cbn [readWorld frameWorld trace];
             destruct (sse_frame_flush (Proxy.NextSyncBatch client) d) as [t ->];
             rewrite app_assoc; apply ReadsAfterFlush_read).
  all: cbv zeta.
  all: match goal with
       | |- context [frameWorld ?k ?d ?w0] =>
           specialize (HO1 d); specialize (HR1 d); specialize (HR2 d);
           set (w1 := frameWorld k d w0) in *
       end.
  all: destruct (nextRead w1) eqn:Hb.
  all: try (cbn [fst snd]; split; [|exact HR2];
            right; exists (trace w1); unfold readWorld; cbn [trace];
            rewrite Hb; auto).
  all: assert (HO3 : Open (trace (emitWorld (ESync true client) (readWorld w1))))
         by (cbn [emitWorld readWorld trace]; rewrite Hb;
             repeat apply Open_snoc; try exact HO1; discriminate).
  all: assert (HR3 : ReadsAfterFlush
                       (trace (emitWorld (ESync true client) (readWorld w1))))
         by (cbn [emitWorld trace]; apply ReadsAfterFlush_snoc;
             [exact HR2|reflexivity]).
  all: try (apply IH; assumption).
  all: cbn [fst snd]; split; [apply Closing_open|]; assumption.
Qed.

(** [serveEventSource] up to its first [Sync] call. *)
Lemma serveEventSource_cases (env : Env) (req : Http.Request) :
  run (serveEventSource env req) env =
  if negb (is_GET req) then
    httpError Http.StatusMethodNotAllowed (initWorld env)
  else if negb (isFlusher env) then
    http_Error "Streaming unsupported!" Http.StatusInternalServerError
      (initWorld env)
  else if negb (isCloseNotifier env) then
    (Panic "interface conversion: not an http.CloseNotifier", initWorld env)
  else
    match fst (resolveAccessToken req (initWorld env)) with
    | Val tok =>
        match upstream env with
        | [] => (Blocked, eventStart env req tok)
        | reply :: rest =>
            eventLoop env rest
              (fst (Proxy.afterSync reply (eventClient env req tok)))
              (fst (snd (Proxy.afterSync reply (eventClient env req tok))))
              (snd (snd (Proxy.afterSync reply (eventClient env req tok))))
              (eventStart env req tok)
        end
    | Panic msg => (Panic msg, initWorld env)
    | Blocked => (Blocked, initWorld env)
    end.
Proof.
  unfold run, serveEventSource, is_GET.
  destruct (negb (String.eqb (Http.Method req) "GET")); [reflexivity|].
  destruct (negb (isFlusher env)); [reflexivity|].
  destruct (negb (isCloseNotifier env)); [reflexivity|].
  pose proof (resolveAccessToken_world req (initWorld env)) as Hw.
  unfold bind at 1.
  destruct (resolveAccessToken req (initWorld env)) as [[tok| |] w0];
    simpl in Hw; subst w0; try reflexivity.
  cbn [fst].
  destruct (upstream env) as [|reply rest]; [reflexivity|].
  fold (eventClient env req tok).
  destruct (Proxy.afterSync reply (eventClient env req tok))
    as [client' result].
  reflexivity.
Qed.

(** [serveStream] up to the answer to its [Sync] call. *)
Lemma serveStream_cases (env : Env) (req : Http.Request) :
  run (serveStream env req) env =
  if negb (is_GET req) then
    httpError Http.StatusMethodNotAllowed (initWorld env)
  else
    match fst (resolveAccessToken req (initWorld env)) with
    | Val tok =>
        match upstream env with
        | [] => (Blocked, streamStart env req tok)
        | Proxy.SyncErr e :: _ => relayError e (streamStart env req tok)
        | Proxy.SyncOk content _ :: _ =>
            ((if upgradeOk env
              then if bridgeReturns env then Val tt else Blocked
              else Val tt),
             {| rw := freshResponse;
                trace := trace (streamStart env req tok)
                         ++ upgradeEvents env content;
                reads := connectionExists env |})
        end
    | Panic msg => (Panic msg, initWorld env)
    | Blocked => (Blocked, initWorld env)
    end.
Proof.
  unfold run, serveStream, is_GET.
  destruct (negb (String.eqb (Http.Method req) "GET")); [reflexivity|].
  pose proof (resolveAccessToken_world req (initWorld env)) as Hw.
  unfold bind at 1.
  destruct (resolveAccessToken req (initWorld env)) as [[tok| |] w0];
    simpl in Hw; subst w0; try reflexivity.
  cbn [fst].
  destruct (upstream env) as [|[content next|e] rest]; try reflexivity.
  unfold upgradeEvents. cbn.
  destruct (upgradeOk env); [|reflexivity].
  cbn. rewrite <- ?app_assoc. cbn.
  destruct (bridgeReturns env); cbn; rewrite <- ?app_assoc; reflexivity.
Qed.

(** C6.  On [/events], a read of [connectionExists] that finds the
    connection closed is the last thing the handler does: it returns, and
    no [Sync] call, nor anything else, follows.  The flag is read only
    right after the flush that ends a cycle, never while a [Sync] call
    or the writes of a frame are under way. *)
Theorem closure_stops_polling (env : Env) (req : Http.Request) :
  (forall pre post,
      trace (snd (run (serveEventSource env req) env))
      = (pre ++ EReadConnectionExists false :: post)%list ->
      post = [] /\ fst (run (serveEventSource env req) env) = Val tt)
  /\ (forall pre b post,
         trace (snd (run (serveEventSource env req) env))
         = (pre ++ EReadConnectionExists b :: post)%list ->
         exists pre', pre = (pre' ++ [EFlush])%list).
Proof.
  assert (H : Closing (fst (run (serveEventSource env req) env))
                      (trace (snd (run (serveEventSource env req) env)))
              /\ ReadsAfterFlush
                   (trace (snd (run (serveEventSource env req) env)))).
  { rewrite serveEventSource_cases.
    destruct (negb (is_GET req)).
    { destruct (emits_writer_http_Error
                  (Http.StatusText Http.StatusMethodNotAllowed)
                  Http.StatusMethodNotAllowed (initWorld env)) as [t [Ht Hw]].
      unfold httpError. rewrite Ht. split.
      - apply Closing_open, Open_app; [apply Open_nil|exact Hw].
      - apply ReadsAfterFlush_app; [apply ReadsAfterFlush_nil|exact Hw]. }
    destruct (negb (isFlusher env)).
    { destruct (emits_writer_http_Error "Streaming unsupported!"
                  Http.StatusInternalServerError (initWorld env))
        as [t [Ht Hw]].
      rewrite Ht. split.
      - apply Closing_open, Open_app; [apply Open_nil|exact Hw].
      - apply ReadsAfterFlush_app; [apply ReadsAfterFlush_nil|exact Hw]. }
    destruct (negb (isCloseNotifier env)).
    { split; [apply Closing_open, Open_nil|apply ReadsAfterFlush_nil]. }
    destruct (fst (resolveAccessToken req (initWorld env))) as [tok| |];
      try (split; [apply Closing_open, Open_nil|apply ReadsAfterFlush_nil]).
    assert (HO : Open (trace (eventStart env req tok))).
    { intros H. simpl in H. intuition discriminate. }
    assert (HR : ReadsAfterFlush (trace (eventStart env req tok))).
    { change (trace (eventStart env req tok)) with
        ((((([] ++ [EHeaderSet "Content-Type" "text/event-stream"])
            ++ [EHeaderSet "Cache-Control" "no-cache"])
            ++ [EHeaderSet "Connection" "keep-alive"])
            ++ [EHeaderSet "Access-Control-Allow-Origin" "*"])
            ++ [ESync false (eventClient env req tok)])%list.
      repeat apply ReadsAfterFlush_snoc; try reflexivity.
      apply ReadsAfterFlush_nil. }
    destruct (upstream env) as [|reply rest].
    { split; [apply Closing_open|]; assumption. }
    apply eventLoop_closure; assumption. }
  destruct H as [HC HR]. split; [|exact HR].
  intros pre post E. destruct HC as [HO|[pre' [E' [HO Hr]]]].
  - exfalso. apply HO. rewrite E. apply in_or_app. right. now left.
  - split; [|exact Hr]. rewrite E' in E.
    exact (closed_NoneAfterClosure _ HO _ _ E).
Qed.

Lemma closure_stops_polling_witness :
  trace (snd (run (serveEventSource envClosed reqPlain) envClosed))
  = ((trace (eventStart envClosed reqPlain "tok")
      ++ sse_frame "s3"
           (js "{'account_data':null,'to_device':null,'device_lists':null,'presence':{'events':[]},'rooms':{'join':{}},'groups':null,'device_one_time_keys_count':0,'next_batch':''}"))
     ++ EReadConnectionExists false :: [])%list
  /\ ([] : list Event) = []
  /\ fst (run (serveEventSource envClosed reqPlain) envClosed) = Val tt.
Proof.
  assert (E : trace (snd (run (serveEventSource envClosed reqPlain) envClosed))
              = ((trace (eventStart envClosed reqPlain "tok")
                  ++ sse_frame "s3"
                       (js "{'account_data':null,'to_device':null,'device_lists':null,'presence':{'events':[]},'rooms':{'join':{}},'groups':null,'device_one_time_keys_count':0,'next_batch':''}"))
                 ++ EReadConnectionExists false :: [])%list)
    by (vm_compute; reflexivity).
  split; [exact E|].
  exact (proj1 (closure_stops_polling envClosed reqPlain) _ _ E).
Defined.

(* ===================================================================== *)
(** ** Relaying a failed sync *)
(* ===================================================================== *)

Lemma get_set (k v : string) (m : list (string * string)) :
  Http.get k (Http.set k v m) = Some v.
Proof.
  induction m as [|[k' v'] m IH]; simpl.
  - now rewrite String.eqb_refl.
  - destruct (String.eqb k k') eqn:E; simpl.
    + now rewrite String.eqb_refl.
    + now rewrite E.
Qed.

Lemma canonical_Content_Type :
  Http.CanonicalMIMEHeaderKey "Content-Type" = "Content-Type".
Proof. reflexivity. Qed.

Lemma get_set_other (k k' v : string) (m : list (string * string)) :
  String.eqb k k' = false ->
  Http.get k (Http.set k' v m) = Http.get k m.
Proof.
  intros E. induction m as [|[k0 v0] m IH]; simpl.
  - now rewrite E.
  - destruct (String.eqb k' k0) eqn:E0; simpl.
    + apply String.eqb_eq in E0. subst k0. now rewrite E.
    + now rewrite IH.
Qed.

Lemma handleHttpError_run (h : Proxy.HttpError) (w : World) :
  handleHttpError h w =
  let r := rw_HeaderSet "Content-Type" (Proxy.ContentType h) (rw w) in
  let t := (trace w ++ [EHeaderSet "Content-Type" (Proxy.ContentType h);
                        EWriteHeader (Proxy.StatusCode h)])%list in
  if wroteHeader (rw w) then
    (Val tt, {| rw := rw_Write (Proxy.Body h) r;
                trace := t ++ [EWrite (Proxy.Body h)]; reads := reads w |})
  else if validStatus (Proxy.StatusCode h) then
    (Val tt, {| rw := rw_Write (Proxy.Body h)
                        (writeHeaderNow (Proxy.StatusCode h) r);
                trace := t ++ [EWrite (Proxy.Body h)]; reads := reads w |})
  else (Panic "invalid WriteHeader code",
        {| rw := r; trace := t; reads := reads w |}).
Proof.
  unfold handleHttpError.
  rewrite (bind_val _ _ _ _ _ (HeaderSet_run _ _ _)).
  unfold bind at 1. rewrite WriteHeader_run.
  cbn [rw rw_HeaderSet wroteHeader trace reads].
  destruct (wroteHeader (rw w));
    [|destruct (validStatus (Proxy.StatusCode h))];
    rewrite ?Write_run; cbn [rw trace reads]; rewrite <- ?app_assoc;
    reflexivity.
Qed.

Lemma http_Error_run (error : string) (code : Z) (w : World) :
  http_Error error code w =
  let r := rw_HeaderSet "X-Content-Type-Options" "nosniff"
             (rw_HeaderSet "Content-Type" "text/plain; charset=utf-8" (rw w)) in
  let t := (trace w ++ [EHeaderSet "Content-Type" "text/plain; charset=utf-8";
                        EHeaderSet "X-Content-Type-Options" "nosniff";
                        EWriteHeader code])%list in
  if wroteHeader (rw w) then
    (Val tt, {| rw := rw_Write (error ++ nl) r;
                trace := t ++ [EWrite (error ++ nl)]; reads := reads w |})
  else if validStatus code then
    (Val tt, {| rw := rw_Write (error ++ nl) (writeHeaderNow code r);
                trace := t ++ [EWrite (error ++ nl)]; reads := reads w |})
  else (Panic "invalid WriteHeader code",
        {| rw := r; trace := t; reads := reads w |}).
Proof.
  unfold http_Error.
  rewrite (bind_val _ _ _ _ _ (HeaderSet_run _ _ _)).
  rewrite (bind_val _ _ _ _ _ (HeaderSet_run _ _ _)).
  unfold bind at 1. rewrite WriteHeader_run.
  cbn [rw rw_HeaderSet wroteHeader trace reads].
  destruct (wroteHeader (rw w));
    [|destruct (validStatus code)];
    rewrite ?Write_run; cbn [rw trace reads]; rewrite <- ?app_assoc;
    reflexivity.
Qed.

(** [handleHttpError] on a response nothing has been written to. *)
Lemma handleHttpError_fresh (h : Proxy.HttpError) (w : World) :
  wroteHeader (rw w) = false ->
  body (rw w) = EmptyString ->
  validStatus (Proxy.StatusCode h) = true ->
  bodyAllowedForStatus (Proxy.StatusCode h) = true ->
  fst (handleHttpError h w) = Val tt
  /\ relays h (rw (snd (handleHttpError h w))).
Proof.
  intros Hw Hb Hv Ha. rewrite handleHttpError_run. cbv zeta.
  rewrite Hw, Hv. cbn [fst snd rw].
  split; [reflexivity|]. unfold relays, contentType, rw_Write.
  cbn [writeHeaderNow wroteHeader status sentHeader body header rw_HeaderSet].
  rewrite Ha, Hb, canonical_Content_Type, get_set. repeat split.
Qed.

(** [http.Error] with code 500 on a response nothing has been written
    to. *)
Lemma httpError_500_fresh (w : World) :
  wroteHeader (rw w) = false ->
  body (rw w) = EmptyString ->
  fst (httpError Http.StatusInternalServerError w) = Val tt
  /\ genericFailure (rw (snd (httpError Http.StatusInternalServerError w))).
Proof.
  intros Hw Hb. unfold httpError. rewrite http_Error_run. cbv zeta.
  rewrite Hw.
  change (validStatus Http.StatusInternalServerError) with true. cbv iota.
  cbn [fst snd rw]. split; [reflexivity|].
  unfold genericFailure, contentType, rw_Write.
  cbn [writeHeaderNow wroteHeader status sentHeader body header rw_HeaderSet].
  change (bodyAllowedForStatus Http.StatusInternalServerError) with true.
  cbv iota. rewrite Hb.
  change (Http.CanonicalMIMEHeaderKey "X-Content-Type-Options")
    with "X-Content-Type-Options".
  rewrite canonical_Content_Type.
  rewrite get_set_other by reflexivity. rewrite get_set. repeat split.
Qed.

(** Relaying on a response that has started: status and header stay, the
    body grows. *)
Lemma relayError_started (e : Proxy.GoError) (w : World) :
  wroteHeader (rw w) = true ->
  fst (relayError e w) = Val tt
  /\ status (rw (snd (relayError e w))) = status (rw w)
  /\ sentHeader (rw (snd (relayError e w))) = sentHeader (rw w)
  /\ body (rw (snd (relayError e w)))
     = if bodyAllowedForStatus (status (rw w))
       then body (rw w) ++ relayedBody e
       else body (rw w).
Proof.
  intros Hw.
  destruct e as [h c m|h|j|msg]; cbn [relayError relayedBody classified];
    unfold httpError;
    rewrite ?handleHttpError_run, ?http_Error_run; cbv zeta;
    rewrite Hw; cbn [fst snd rw]; unfold rw_Write;
    cbn [rw_HeaderSet wroteHeader status sentHeader body]; rewrite Hw;
    repeat split.
Qed.

(** Relaying on a response nothing has been written to. *)
Lemma relayError_fresh (e : Proxy.GoError) (w : World) :
  wroteHeader (rw w) = false ->
  body (rw w) = EmptyString ->
  relayable e = true ->
  fst (relayError e w) = Val tt
  /\ match classified e with
     | Some h => relays h (rw (snd (relayError e w)))
     | None => genericFailure (rw (snd (relayError e w)))
     end.
Proof.
  intros Hw Hb Hr.
  destruct e as [h c m|h|j|msg]; cbn [relayError classified];
    [ | | apply httpError_500_fresh; assumption
    | apply httpError_500_fresh; assumption ];
    unfold relayable in Hr; cbn [classified] in Hr;
    apply andb_true_iff in Hr as [Hv Ha];
    apply handleHttpError_fresh; assumption.
Qed.

(* ===================================================================== *)
(** ** [/stream]: the initial sync comes before the upgrade *)
(* ===================================================================== *)




(* ===================================================================== *)
(** ** Failures of the initial sync and of later ones *)
(* ===================================================================== *)

(** C5.  Evaluation at the failing input: on [/events] the first sync
    gives a payload, the connection is there when its frame is out, and
    the second sync is refused with status 403.  The handler relays the
    refusal with the calls it makes for a failure of the initial sync,
    [WriteHeader(403)] among them, and returns; but the header of the
    response went out with the first frame, so the response keeps status
    200 and the content type [text/event-stream], and the body of the
    refusal follows the frame in the event stream. *)
Theorem later_failure_keeps_200 :
  fst (run (serveEventSource envLate reqPlain) envLate) = Val tt
  /\ relayed_in (trace (snd (run (serveEventSource envLate reqPlain) envLate)))
       forbidden
  /\ status (rw (snd (run (serveEventSource envLate reqPlain) envLate)))
     = Http.StatusOK
  /\ contentType (rw (snd (run (serveEventSource envLate reqPlain) envLate)))
     = Some "text/event-stream"
  /\ body (rw (snd (run (serveEventSource envLate reqPlain) envLate)))
     = sse_bytes "s3" rewrittenRooms ++ Proxy.Body forbidden
  /\ ~ every_failure_relayed envLate reqPlain.
Proof.
  assert (R : relayed_in
                (trace (snd (run (serveEventSource envLate reqPlain) envLate)))
                forbidden).
  { exists (firstn 11
              (trace (snd (run (serveEventSource envLate reqPlain) envLate)))).
    vm_compute. reflexivity. }
  split; [vm_compute; reflexivity|].
  split; [exact R|].
  split; [vm_compute; reflexivity|].
  split; [vm_compute; reflexivity|].
  split; [vm_compute; reflexivity|].
  intros H. destruct (H forbidden R) as [Hs _].
  vm_compute in Hs. discriminate.
Qed.

(* ===================================================================== *)
(** ** [PopNextBatch] *)
(* ===================================================================== *)

Lemma append_nil_r (s : string) : s ++ EmptyString = s.
Proof. induction s; simpl; congruence. Qed.

Lemma append_assoc (a b c : string) : (a ++ b) ++ c = a ++ (b ++ c).
Proof. induction a; simpl; congruence. Qed.

Lemma contains_byte_app (c : ascii) (a b : string) :
  GoString.contains_byte c (a ++ b)
  = GoString.contains_byte c a || GoString.contains_byte c b.
Proof.
  induction a as [|d a IH]; simpl; [reflexivity|].
  now rewrite IH, orb_assoc.
Qed.

Lemma escape_byte_no_LF (c : ascii) :
  GoString.contains_byte Json.LF (Json.escape_byte c) = false.
Proof. destruct c as [[] [] [] [] [] [] [] []]; reflexivity. Qed.

Lemma escape_no_LF (s : string) :
  GoString.contains_byte Json.LF (Json.escape s) = false.
Proof.
  induction s as [|c s IH]; simpl; [reflexivity|].
  now rewrite contains_byte_app, escape_byte_no_LF, IH.
Qed.

Lemma encode_string_no_LF (s : string) :
  GoString.contains_byte Json.LF (Json.encode_string s) = false.
Proof.
  unfold Json.encode_string. simpl.
  now rewrite contains_byte_app, escape_no_LF.
Qed.

Lemma string_of_uint_no_LF (d : Decimal.uint) :
  GoString.contains_byte Json.LF (DecimalString.NilEmpty.string_of_uint d)
  = false.
Proof. induction d; simpl; auto. Qed.

Lemma encode_int_no_LF (n : Z) :
  GoString.contains_byte Json.LF (Json.encode_int n) = false.
Proof.
  unfold Json.encode_int, DecimalString.NilZero.string_of_int,
    DecimalString.NilZero.string_of_uint.
  destruct (Z.to_int n) as [d|d]; destruct d; simpl;
    auto using string_of_uint_no_LF.
Qed.

Lemma join_no_LF (parts : list string) :
  Forall (fun p => GoString.contains_byte Json.LF p = false) parts ->
  GoString.contains_byte Json.LF (Json.join parts) = false.
Proof.
  induction 1 as [|p ps Hp Hps IH]; [reflexivity|].
  destruct ps as [|q ps]; [exact Hp|].
  change (Json.join (p :: q :: ps)) with (p ++ "," ++ Json.join (q :: ps)).
  rewrite !contains_byte_app, Hp, IH. reflexivity.
Qed.

(** What [Marshal] writes for a value has no line feed in it. *)
Lemma encode_no_LF :
  forall i, GoString.contains_byte Json.LF (Json.encode i) = false.
Proof.
  fix IH 1. intros [ |[|]|n|s|l|m]; try reflexivity.
  - apply encode_int_no_LF.
  - apply encode_string_no_LF.
  - cbn [Json.encode]. rewrite !contains_byte_app.
    rewrite join_no_LF; [reflexivity|].
    induction l as [|a l IHl]; constructor; [apply IH|exact IHl].
  - cbn [Json.encode]. rewrite !contains_byte_app.
    rewrite join_no_LF; [reflexivity|].
    induction m as [|[k v] m IHm]; constructor; [|exact IHm].
    cbn [fst snd]. rewrite !contains_byte_app, encode_string_no_LF, IH.
    reflexivity.
Qed.

Lemma Marshal_no_LF (r : Json.SyncResponse) :
  GoString.contains_byte Json.LF (Json.Marshal r) = false.
Proof.
  unfold Json.Marshal. rewrite !contains_byte_app.
  rewrite join_no_LF; [reflexivity|].
  unfold Json.members, Json.fields. cbn [map].
  repeat constructor; unfold Json.encode_member; cbn [fst snd];
    rewrite !contains_byte_app, encode_string_no_LF; cbn [orb];
    cbn [Json.encodeField];
    change (GoString.contains_byte Json.LF ":") with false; cbn [orb];
    auto using encode_no_LF, encode_int_no_LF, encode_string_no_LF.
Qed.

(** The two ways [PopNextBatch] returns. *)
Lemma PopNextBatch_Ok (input out : string) :
  PopNextBatch input = Json.Ok out ->
  exists jsr,
    Json.Unmarshal input Json.zero = Json.Ok (jsr, None)
    /\ out = Json.Marshal (Json.set_NextBatch EmptyString jsr).
Proof.
  unfold PopNextBatch.
  destruct (Json.Unmarshal input Json.zero) as [[jsr [e|]]|e|];
    intros H; try discriminate.
  injection H as <-. now exists jsr.
Qed.

Lemma PopNextBatch_no_LF (input out : string) :
  PopNextBatch input = Json.Ok out ->
  GoString.contains_byte Json.LF out = false.
Proof.
  intros H. destruct (PopNextBatch_Ok _ _ H) as [jsr [_ ->]].
  apply Marshal_no_LF.
Qed.

Lemma field_eqb_eq (f g : Json.Field) : field_eqb f g = true <-> f = g.
Proof. destruct f, g; simpl; split; intros H; congruence. Qed.

Lemma bind_Ok {A B} (x : Json.outcome A) (f : A -> Json.outcome B) (b : B) :
  Json.bind x f = Json.Ok b -> exists a, x = Json.Ok a /\ f a = Json.Ok b.
Proof. destruct x as [a|e|]; simpl; intros H; try discriminate. eauto. Qed.

(** Storing a member changes the [interface{}] field it names, to the
    decoded value, and no other. *)
Lemma storeField_get (f0 f : Json.Field) (v : Json.value)
    (st st1 : Json.dstate) :
  Json.storeField f0 v st = Json.Ok st1 ->
  is_iface_field f = true ->
  if field_eqb f0 f
  then Json.toInterface v = Json.Ok (get_iface f (fst st1))
  else get_iface f (fst st1) = get_iface f (fst st).
Proof.
  intros H Hf. destruct f0.
  1-6: cbn [Json.storeField] in H; apply bind_Ok in H as [i [Hi H]];
       injection H as <-; destruct f; try discriminate; cbn; auto.
  - destruct f; try discriminate; cbn [field_eqb];
      cbn [Json.storeField] in H;
      destruct v; try destruct (Json.int64_range n);
      injection H as <-; unfold Json.saveError;
      try destruct (snd st); reflexivity.
  - destruct f; try discriminate; cbn [field_eqb];
      cbn [Json.storeField] in H;
      destruct v; injection H as <-; unfold Json.saveError;
      try destruct (snd st); reflexivity.
Qed.

(** After decoding, each [interface{}] field holds the decoded value of
    the last member that names it. *)
Lemma decodeObject_lastValue (ms : list (string * Json.value)) :
  forall (acc : Json.Field -> Json.value) (st st' : Json.dstate),
    (forall f, is_iface_field f = true ->
               Json.toInterface (acc f) = Json.Ok (get_iface f (fst st))) ->
    Json.decodeObject ms st = Json.Ok st' ->
    forall f, is_iface_field f = true ->
              Json.toInterface (lastValueFrom f (acc f) ms)
              = Json.Ok (get_iface f (fst st')).
Proof.
  induction ms as [|[k v] ms IH]; intros acc st st' Hacc Hdec f Hf.
  - simpl in *. injection Hdec as <-. now apply Hacc.
  - cbn [Json.decodeObject lastValueFrom] in *.
    destruct (Json.findField k) as [f0|]; [|now apply (IH acc st st')].
    apply bind_Ok in Hdec as [st1 [Hst Hdec]].
    specialize (IH (fun g => if field_eqb f0 g then v else acc g) st1 st').
    cbv beta in IH. destruct (field_eqb f0 f) eqn:E.
    + specialize (IH ltac:(
        intros g Hg; pose proof (storeField_get f0 g v st st1 Hst Hg) as S;
        destruct (field_eqb f0 g); [exact S|rewrite S; now apply Hacc])
        Hdec f Hf).
      now rewrite E in IH.
    + specialize (IH ltac:(
        intros g Hg; pose proof (storeField_get f0 g v st st1 Hst Hg) as S;
        destruct (field_eqb f0 g); [exact S|rewrite S; now apply Hacc])
        Hdec f Hf).
      now rewrite E in IH.
Qed.

(** C1.  Evaluation at the failing input: a payload with the cursor and
    one field that the struct [SyncResponse] does not declare.  The data
    [PopNextBatch] returns is the encoding of the struct, with its eight
    fields: the unknown field is not among them, and the cursor field is,
    with the empty string as its value. *)
Theorem unknown_field_dropped_cursor_kept :
  Json.parse payloadCustom
  = Json.Ok (Json.JObject [("next_batch", Json.JString "s1");
                           ("custom", Json.JNumber 1)])
  /\ PopNextBatch payloadCustom
     = Json.Ok (js "{'account_data':null,'to_device':null,'device_lists':null,'presence':null,'rooms':null,'groups':null,'device_one_time_keys_count':0,'next_batch':''}")
  /\ (exists out outms,
        PopNextBatch payloadCustom = Json.Ok out
        /\ Json.parse out = Json.Ok (Json.JObject outms)
        /\ map fst outms = (schema_names ++ [cursor_key])%list
        /\ In (cursor_key, Json.JString EmptyString) outms
        /\ ~ In "custom" (map fst outms))
  /\ ~ rewrite_keeps_fields payloadCustom.
Proof.
  split; [vm_compute; reflexivity|].
  split; [vm_compute; reflexivity|].
  split.
  - eexists. eexists.
    split; [vm_compute; reflexivity|].
    split; [vm_compute; reflexivity|].
    split; [reflexivity|].
    split; [cbn; auto 10|].
    cbn. intros H.
    repeat (destruct H as [H|H]; [discriminate|]). destruct H.
  - intros H.
    destruct (H [("next_batch", Json.JString "s1");
                 ("custom", Json.JNumber 1)] ltac:(vm_compute; reflexivity))
      as [out [outms [Ho [Hp [Hin _]]]]].
    vm_compute in Ho. injection Ho as <-.
    vm_compute in Hp. injection Hp as <-.
    specialize (Hin "custom" (Json.JNumber 1) ltac:(cbn; auto)).
    cbn in Hin.
    repeat (destruct Hin as [Hin|Hin]; [discriminate|]). destruct Hin.
Qed.

(* ===================================================================== *)
(** ** The frame of one cycle *)
(* ===================================================================== *)

Lemma split_lines_aux_line (s : string) :
  forall cur rest,
    GoString.contains_byte Json.LF s = false ->
    GoString.split_lines_aux cur (s ++ String Json.LF rest)
    = (cur ++ s) :: GoString.split_lines_aux EmptyString rest.
Proof.
  induction s as [|c s IH]; intros cur rest H.
  - simpl. now rewrite append_nil_r.
  - cbn [GoString.contains_byte] in H. apply orb_false_iff in H as [Hc Hs].
    cbn [append GoString.split_lines_aux].
    rewrite Ascii.eqb_sym in Hc. change "010"%char with Json.LF. rewrite Hc.
    rewrite (IH _ _ Hs), append_assoc. reflexivity.
Qed.

(** The bytes of a frame, line by line. *)
Lemma sse_bytes_lines (cursor data : string) :
  GoString.contains_byte Json.LF cursor = false ->
  GoString.contains_byte Json.LF data = false ->
  GoString.split_lines (sse_bytes cursor data)
  = ["id: " ++ cursor; "event: sync"; "data: " ++ data;
     EmptyString; EmptyString].
Proof.
  intros Hc Hd. unfold sse_bytes, GoString.split_lines, nl.
  replace (("id: " ++ cursor ++ String Json.LF EmptyString)
           ++ ("event: sync" ++ String Json.LF EmptyString)
           ++ "data: " ++ data ++ String Json.LF EmptyString
           ++ String Json.LF EmptyString)
    with (("id: " ++ cursor)
          ++ String Json.LF
               ("event: sync"
                ++ String Json.LF
                     (("data: " ++ data)
                      ++ String Json.LF (String Json.LF EmptyString))))
    by (rewrite !append_assoc; reflexivity).
  rewrite split_lines_aux_line
    by (rewrite contains_byte_app, Hc; reflexivity).
  rewrite split_lines_aux_line by reflexivity.
  rewrite split_lines_aux_line
    by (rewrite contains_byte_app, Hd; reflexivity).
  reflexivity.
Qed.

(** On a response that has not started, or has with status 200, the
    frame is what the body grows by. *)
Lemma frameWorld_body (cursor data : string) (w : World) :
  wroteHeader (rw w) = false \/ status (rw w) = Http.StatusOK ->
  status (rw (frameWorld cursor data w)) = Http.StatusOK
  /\ body (rw (frameWorld cursor data w))
     = body (rw w) ++ sse_bytes cursor data.
Proof.
  intros H. unfold frameWorld, rw_Flush, rw_Write, sse_bytes.
  cbn [rw wroteHeader status body writeHeaderNow].
  destruct (wroteHeader (rw w)) eqn:E;
    cbn [rw wroteHeader status body writeHeaderNow].
  - destruct H as [H|H]; [discriminate|]. rewrite H.
    change (bodyAllowedForStatus Http.StatusOK) with true. cbv iota.
    rewrite !append_assoc. split; reflexivity.
  - change (bodyAllowedForStatus Http.StatusOK) with true. cbv iota.
    rewrite !append_assoc. split; reflexivity.
Qed.

(** C7.  Evaluation at the failing input: on [/events] the first sync
    succeeds with a payload whose [device_one_time_keys_count] is an
    object, as homeservers send it, where the struct declares an [int].
    [PopNextBatch] returns an error, which the loop assigns and does not
    look at: the frame is written and flushed with the id line, the line
    [event: sync] and a data line that holds nothing. *)
Theorem empty_data_line_flushed :
  PopNextBatch payloadKeyCounts = Json.Fail Json.UnmarshalTypeError
  /\ fst (run (serveEventSource envKeyCounts reqPlain) envKeyCounts) = Val tt
  /\ trace (snd (run (serveEventSource envKeyCounts reqPlain) envKeyCounts))
     = (trace (eventStart envKeyCounts reqPlain "tok")
        ++ sse_frame "s2" EmptyString ++ [EReadConnectionExists false])%list
  /\ flushedBody
       (rw (snd (run (serveEventSource envKeyCounts reqPlain) envKeyCounts)))
     = ("id: s2" ++ nl) ++ ("event: sync" ++ nl) ++ ("data: " ++ nl ++ nl)
  /\ ~ every_frame_carries_json envKeyCounts reqPlain.
Proof.
  split; [vm_compute; reflexivity|].
  split; [vm_compute; reflexivity|].
  split; [vm_compute; reflexivity|].
  split; [vm_compute; reflexivity|].
  intros H.
  destruct (H (firstn 7 (trace (snd (run (serveEventSource envKeyCounts reqPlain)
                                        envKeyCounts))))
              ("data: " ++ EmptyString ++ nl ++ nl)
              [EReadConnectionExists false]
              ltac:(vm_compute; reflexivity))
    as [j [v [E P]]].
  destruct j as [|c1 [|c2 [|c3 j]]]; cbn in E; unfold nl in E.
  - vm_compute in P. discriminate.
  - congruence.
  - congruence.
  - congruence.
Qed.

(* ===================================================================== *)
(** ** Runs on the scenarios *)
(* ===================================================================== *)

Example canonical_last_event_id :
  Http.CanonicalMIMEHeaderKey "last-event-id" = "Last-Event-Id".
Proof. reflexivity. Qed.

Example PopNextBatch_rooms : PopNextBatch payloadRooms = Json.Ok rewrittenRooms.
Proof. vm_compute. reflexivity. Qed.

(** Keys of a nested object come out sorted, a repeated key keeps its
    last value, white space goes, [<] is escaped, and a key is matched
    to its field without regard to case. *)
Example PopNextBatch_reencodes :
  PopNextBatch (js "{ 'Rooms' : {'b':[1, 2],'a':'x<y','b':null} }")
  = Json.Ok (js "{'account_data':null,'to_device':null,'device_lists':null,'presence':null,'rooms':{'a':'x\u003cy','b':null},'groups':null,'device_one_time_keys_count':0,'next_batch':''}").
Proof. vm_compute. reflexivity. Qed.

Example PopNextBatch_syntax :
  PopNextBatch (js "{'rooms':01}") = Json.Fail Json.SyntaxError
  /\ PopNextBatch (js "{'rooms':{}} x") = Json.Fail Json.SyntaxError
  /\ PopNextBatch EmptyString = Json.Fail Json.SyntaxError
  /\ PopNextBatch (js "[1]") = Json.Fail Json.UnmarshalTypeError
  /\ PopNextBatch (js "{'next_batch':5}") = Json.Fail Json.UnmarshalTypeError.
Proof. vm_compute. repeat split. Qed.

(** A payload beyond the model of [encoding/json]: the loop writes what
    [PopNextBatch] returned, as the environment has it, and polls again. *)
Example fraction_payload_frame :
  PopNextBatch payloadFraction = Json.Unmodelled
  /\ run (serveEventSource envFraction reqPlain) envFraction
     = (Blocked,
        emitWorld (ESync true (Proxy.set_NextSyncBatch "s9"
                                 (eventClient envFraction reqPlain "tok")))
          (readWorld (frameWorld "s9" rewrittenFraction
                        (eventStart envFraction reqPlain "tok")))).
Proof. vm_compute. split; reflexivity. Qed.

Example reconnect_cursor :
  first_sync (trace (snd (run (serveEventSource envClosed reqReconnect)
                              envClosed)))
  = Some (false, Proxy.set_NextSyncBatch "B1"
                   (eventClient envClosed reqPlain "tok")).
Proof. vm_compute. reflexivity. Qed.

Example bearer_on_both_endpoints :
  first_sync (trace (snd (run (serveStream envClosed reqBearer) envClosed)))
  = Some (false, streamClient envClosed reqBearer "Bearer secret")
  /\ first_sync (trace (snd (run (serveEventSource envClosed reqBearer)
                                 envClosed)))
     = Some (false, eventClient envClosed reqBearer "Bearer secret").
Proof. vm_compute. split; reflexivity. Qed.

(* ===================================================================== *)
(** ** Further properties of the handlers *)
(* ===================================================================== *)

(** X1.  [serveEventSource] on a response writer that is no
    [http.Flusher]: the answer is status 500 with the text
    [Streaming unsupported!], and the handler returns before it looks at
    the credential or calls the upstream. *)
Theorem no_flusher_no_stream (env : Env) (req : Http.Request) :
  is_GET req = true ->
  isFlusher env = false ->
  exists w, run (serveEventSource env req) env = (Val tt, w)
    /\ status (rw w) = Http.StatusInternalServerError
    /\ contentType (rw w) = Some "text/plain; charset=utf-8"
    /\ body (rw w) = "Streaming unsupported!" ++ nl
    /\ trace w = [EHeaderSet "Content-Type" "text/plain; charset=utf-8";
                  EHeaderSet "X-Content-Type-Options" "nosniff";
                  EWriteHeader Http.StatusInternalServerError;
                  EWrite ("Streaming unsupported!" ++ nl)].
Proof.
  intros HG HF. rewrite serveEventSource_cases, HG, HF. cbn [negb].
  eexists. split; [reflexivity|]. repeat split.
Qed.

Lemma no_flusher_no_stream_witness :
  exists w, run (serveEventSource envNoFlush reqShort) envNoFlush = (Val tt, w)
    /\ status (rw w) = Http.StatusInternalServerError
    /\ contentType (rw w) = Some "text/plain; charset=utf-8"
    /\ body (rw w) = "Streaming unsupported!" ++ nl
    /\ trace w = [EHeaderSet "Content-Type" "text/plain; charset=utf-8";
                  EHeaderSet "X-Content-Type-Options" "nosniff";
                  EWriteHeader Http.StatusInternalServerError;
                  EWrite ("Streaming unsupported!" ++ nl)].
Proof.
  exact (no_flusher_no_stream envNoFlush reqShort eq_refl eq_refl).
Defined.

Lemma writer_events_no_upstream (t : list Event) :
  forallb is_writer_event t = true -> filter is_upstream_call t = [].
Proof.
  induction t as [|e t IH]; [reflexivity|]. simpl. intros H.
  apply andb_true_iff in H as [He Ht]. rewrite (IH Ht).
  destruct e; try discriminate; reflexivity.
Qed.

Lemma writer_events_before_start (t : list Event) :
  forallb is_writer_event t = true -> before_start t = t.
Proof.
  induction t as [|e t IH]; [reflexivity|]. simpl. intros H.
  apply andb_true_iff in H as [He Ht].
  destruct e; try discriminate; cbn [before_start]; now rewrite (IH Ht).
Qed.

(** X2.  Before it hands the connection to the bridge, [serveStream]
    calls the upstream twice and no more, whatever the answer and
    whatever the bridge does later: [UpdatePresence] with the [presence]
    parameter (the empty string when there is none), then [Sync(false)].
    The cursor of that session is the [since] parameter; the header
    [last-event-id] plays no part on this endpoint. *)
Theorem stream_calls_upstream_twice (env : Env) (req : Http.Request) :
  is_GET req = true ->
  token_resolves req = true ->
  exists c,
    filter is_upstream_call
      (before_start (trace (snd (run (serveStream env req) env))))
    = [EUpdatePresence c (Http.Values_Get (Http.Query req) "presence");
       ESync false c]
    /\ Proxy.NextSyncBatch c = since req
    /\ Proxy.Filter c = Http.Values_Get (Http.Query req) "filter"
    /\ Proxy.Url c = upstreamURL env.
Proof.
  intros HG HT.
  destruct (resolveAccessToken_ok req (initWorld env) HT) as [tok Htok].
  exists (streamClient env req tok).
  split; [|repeat split].
  rewrite serveStream_cases, HG, Htok. cbn [negb fst].
  destruct (upstream env) as [|[content next|e] rest].
  - reflexivity.
  - cbn [snd trace]. unfold upgradeEvents.
    destruct (upgradeOk env); reflexivity.
  - destruct (emits_writer_relayError e (streamStart env req tok))
      as [t [-> Hw]].
    cbn [streamStart trace app before_start].
    rewrite (writer_events_before_start _ Hw).
    cbn [filter is_upstream_call].
    rewrite (writer_events_no_upstream _ Hw). reflexivity.
Qed.

Lemma stream_calls_upstream_twice_witness :
  exists c,
    filter is_upstream_call
      (before_start
         (trace (snd (run (serveStream envBridge reqReconnect) envBridge))))
    = [EUpdatePresence c (Http.Values_Get (Http.Query reqReconnect) "presence");
       ESync false c]
    /\ Proxy.NextSyncBatch c = since reqReconnect
    /\ Proxy.Filter c = Http.Values_Get (Http.Query reqReconnect) "filter"
    /\ Proxy.Url c = upstreamURL envBridge.
Proof.
  exact (stream_calls_upstream_twice envBridge reqReconnect eq_refl eq_refl).
Defined.

(** X3.  A payload that [PopNextBatch] rejects does not end the stream:
    the error is dropped, the frame goes out with an empty data line, and
    while the connection is there the next thing the loop does is
    [Sync(true)] with the same session. *)
Theorem rejected_payload_keeps_polling (env : Env)
    (upstream : list Proxy.SyncReply)
    (client : Proxy.Client) (content : string) (e : Json.error) (w : World) :
  PopNextBatch content = Json.Fail e ->
  nextRead w = true ->
  exists rest,
    trace (snd (eventLoop env upstream client content None w))
    = (trace w ++ sse_frame (Proxy.NextSyncBatch client) EmptyString
       ++ EReadConnectionExists true :: ESync true client :: rest)%list.
Proof.
  intros H Hb.
  rewrite eventLoop_cycle, (callPopNextBatch_Fail env _ _ H).
  cbv zeta. cbn [fst].
  change (nextRead (frameWorld (Proxy.NextSyncBatch client) EmptyString w))
    with (nextRead w).
  rewrite Hb. destruct upstream as [|reply upstream].
  - exists []. cbn [snd emitWorld readWorld frameWorld trace].
    change (nextRead (frameWorld (Proxy.NextSyncBatch client) EmptyString w))
      with (nextRead w).
    rewrite Hb, <- !app_assoc. reflexivity.
  - match goal with
    | |- context [eventLoop ?en ?u ?c ?x ?err ?w0] =>
        destruct (extends_eventLoop en u c x err w0) as [t Ht]
    end.
    exists t. rewrite Ht.
    cbn [snd emitWorld readWorld frameWorld trace].
    change (nextRead (frameWorld (Proxy.NextSyncBatch client) EmptyString w))
      with (nextRead w).
    rewrite Hb, <- !app_assoc. reflexivity.
Qed.

Lemma rejected_payload_keeps_polling_witness :
  exists rest,
    trace (snd (eventLoop envRejected [Proxy.SyncOk payloadRooms "s3"]
                  (Proxy.set_NextSyncBatch "s2"
                     (eventClient envRejected reqPlain "tok"))
                  payloadKeyCounts None
                  (eventStart envRejected reqPlain "tok")))
    = (trace (eventStart envRejected reqPlain "tok")
       ++ sse_frame "s2" EmptyString
       ++ EReadConnectionExists true
       :: ESync true (Proxy.set_NextSyncBatch "s2"
                        (eventClient envRejected reqPlain "tok"))
       :: rest)%list.
Proof.
  exact (rejected_payload_keeps_polling envRejected
           [Proxy.SyncOk payloadRooms "s3"]
           (Proxy.set_NextSyncBatch "s2"
              (eventClient envRejected reqPlain "tok"))
           payloadKeyCounts Json.UnmarshalTypeError
           (eventStart envRejected reqPlain "tok")
           ltac:(vm_compute; reflexivity) eq_refl).
Defined.

(** X4.  An error of a relayed kind whose status has not three digits
    (a failure that carries no status, say) cannot be relayed as the
    answer to the initial sync: [WriteHeader] panics on the code, on
    either endpoint, and no header and no body go out. *)
Theorem invalid_status_panics (env : Env) (req : Http.Request)
    (e : Proxy.GoError) (h : Proxy.HttpError) (rest : list Proxy.SyncReply) :
  is_GET req = true ->
  streams env = true ->
  token_resolves req = true ->
  upstream env = Proxy.SyncErr e :: rest ->
  classified e = Some h ->
  validStatus (Proxy.StatusCode h) = false ->
  forall handler, handler = serveEventSource \/ handler = serveStream ->
    fst (run (handler env req) env) = Panic "invalid WriteHeader code"
    /\ wroteHeader (rw (snd (run (handler env req) env))) = false
    /\ body (rw (snd (run (handler env req) env))) = EmptyString.
Proof.
  intros HG HS HT HU Hc Hv handler Hh.
  apply andb_true_iff in HS as [HF HC].
  destruct (resolveAccessToken_ok req (initWorld env) HT) as [tok Htok].
  assert (R : forall w, wroteHeader (rw w) = false ->
                        body (rw w) = EmptyString ->
              fst (relayError e w) = Panic "invalid WriteHeader code"
              /\ wroteHeader (rw (snd (relayError e w))) = false
              /\ body (rw (snd (relayError e w))) = EmptyString).
  { intros w Hw Hb.
    destruct e as [h' c m|h'|j|msg]; try discriminate;
      injection Hc as ->; cbn [relayError];
      rewrite handleHttpError_run; cbv zeta; rewrite Hw, Hv;
      cbn [fst snd rw rw_HeaderSet wroteHeader body]; auto. }
  destruct Hh as [-> | ->].
  - rewrite serveEventSource_cases, HG, HF, HC, Htok, HU.
    cbn [negb fst snd Proxy.afterSync].
    replace (eventLoop env rest (eventClient env req tok) EmptyString
               (Some e))
      with (relayError e) by (destruct rest; reflexivity).
    apply R; reflexivity.
  - rewrite serveStream_cases, HG, Htok, HU. cbn [negb fst].
    apply R; reflexivity.
Qed.

Lemma invalid_status_panics_witness :
  (fst (run (serveEventSource envNoStatus reqPlain) envNoStatus)
   = Panic "invalid WriteHeader code"
   /\ wroteHeader (rw (snd (run (serveEventSource envNoStatus reqPlain)
                              envNoStatus))) = false
   /\ body (rw (snd (run (serveEventSource envNoStatus reqPlain) envNoStatus)))
      = EmptyString)
  /\ (fst (run (serveStream envNoStatus reqPlain) envNoStatus)
      = Panic "invalid WriteHeader code"
      /\ wroteHeader (rw (snd (run (serveStream envNoStatus reqPlain)
                                 envNoStatus))) = false
      /\ body (rw (snd (run (serveStream envNoStatus reqPlain) envNoStatus)))
         = EmptyString).
Proof.
  split.
  - exact (invalid_status_panics envNoStatus reqPlain (Proxy.HttpErr noStatus)
             noStatus [] eq_refl eq_refl eq_refl eq_refl eq_refl eq_refl
             serveEventSource (or_introl eq_refl)).
  - exact (invalid_status_panics envNoStatus reqPlain (Proxy.HttpErr noStatus)
             noStatus [] eq_refl eq_refl eq_refl eq_refl eq_refl eq_refl
             serveStream (or_intror eq_refl)).
Defined.

(* ===================================================================== *)
(** ** Invariants of the event loop *)
(* ===================================================================== *)

(** Induction on the loop: a property [Q] of the way it ends follows
    from an invariant [I] of the worlds at the head of each iteration. *)
Lemma eventLoop_invariant (I : World -> Prop) (Q : res unit * World -> Prop) :
  (forall e w, I w -> Q (relayError e w)) ->
  (forall k d w, I w -> nextRead w = false ->
                 Q (Val tt, readWorld (frameWorld k d w))) ->
  (forall c d w, I w -> nextRead w = true ->
     I (emitWorld (ESync true c)
          (readWorld (frameWorld (Proxy.NextSyncBatch c) d w)))
     /\ Q (Blocked, emitWorld (ESync true c)
                      (readWorld (frameWorld (Proxy.NextSyncBatch c) d w)))) ->
  forall env upstream client content err w,
    I w -> Q (eventLoop env upstream client content err w).
Proof.
  intros Herr Hclosed Hstep env ups.
  induction ups as [|reply ups IH]; intros client content err w HI.
  all: destruct err as [e|]; [cbn [eventLoop]; now apply Herr|].
  all: rewrite eventLoop_cycle.
  all: cbv zeta.
  all: match goal with
       | |- context [frameWorld ?k ?d ?w0] =>
           change (nextRead (frameWorld k d w0)) with (nextRead w0);
           destruct (nextRead w0) eqn:Hb;
           [destruct (Hstep client d w0 HI Hb) as [HI' HQ]
           |now apply Hclosed]
       end.
  all: try exact HQ.
  all: now apply IH.
Qed.










Lemma readWorld_trace (w : World) :
  trace (readWorld w) = (trace w ++ [EReadConnectionExists (nextRead w)])%list.
Proof. reflexivity. Qed.

Lemma poll_trace (c : Proxy.Client) (k d : string) (w : World) :
  nextRead w = true ->
  trace (emitWorld (ESync true c) (readWorld (frameWorld k d w)))
  = (((trace w ++ sse_frame k d) ++ [EReadConnectionExists true])
     ++ [ESync true c])%list.
Proof.
  intros Hb. cbn [emitWorld readWorld frameWorld trace].
  change (nextRead (frameWorld k d w)) with (nextRead w). now rewrite Hb.
Qed.

(** The loop ends open, or with all that was written flushed. *)
Lemma eventLoop_flushed :
  forall env upstream client content err w,
    Open (trace w) ->
    Open (trace (snd (eventLoop env upstream client content err w)))
    \/ flushedBody (rw (snd (eventLoop env upstream client content err w)))
       = body (rw (snd (eventLoop env upstream client content err w))).
Proof.
  apply (eventLoop_invariant
           (fun w => Open (trace w))
           (fun x => Open (trace (snd x))
                     \/ flushedBody (rw (snd x)) = body (rw (snd x)))).
  - intros e w H. left.
    destruct (emits_writer_relayError e w) as [t [-> Hw]].
    now apply Open_app.
  - intros k d w H _. right. reflexivity.
  - intros c d w H Hb.
    assert (HO : Open (trace (emitWorld (ESync true c)
                                (readWorld (frameWorld (Proxy.NextSyncBatch c)
                                              d w))))).
    { rewrite (poll_trace _ _ _ _ Hb).
      repeat apply Open_snoc; try discriminate.
      apply Open_app; [exact H|apply sse_frame_writer]. }
    split; [exact HO|left; exact HO].
Qed.

(** X6.  When [serveEventSource] returns because it found the
    connection closed, all that it wrote has been flushed. *)
Theorem closure_after_flush (env : Env) (req : Http.Request)
    (pre post : list Event) :
  trace (snd (run (serveEventSource env req) env))
  = (pre ++ EReadConnectionExists false :: post)%list ->
  flushedBody (rw (snd (run (serveEventSource env req) env)))
  = body (rw (snd (run (serveEventSource env req) env))).
Proof.
  intros E.
  assert (NO : ~ Open (trace (snd (run (serveEventSource env req) env)))).
  { intros HO. apply HO. rewrite E. apply in_or_app. right. now left. }
  revert NO. clear E. rewrite serveEventSource_cases.
  destruct (negb (is_GET req)).
  { intros NO. exfalso. apply NO. unfold httpError.
    destruct (emits_writer_http_Error
                (Http.StatusText Http.StatusMethodNotAllowed)
                Http.StatusMethodNotAllowed (initWorld env)) as [t [-> Hw]].
    apply Open_app; [apply Open_nil|exact Hw]. }
  destruct (negb (isFlusher env)).
  { intros NO. exfalso. apply NO.
    destruct (emits_writer_http_Error "Streaming unsupported!"
                Http.StatusInternalServerError (initWorld env)) as [t [-> Hw]].
    apply Open_app; [apply Open_nil|exact Hw]. }
  destruct (negb (isCloseNotifier env)).
  { intros NO. exfalso. apply NO, Open_nil. }
  destruct (fst (resolveAccessToken req (initWorld env))) as [tok| |];
    try (intros NO; exfalso; apply NO, Open_nil).
  assert (HO : Open (trace (eventStart env req tok))).
  { intros H. simpl in H. intuition discriminate. }
  destruct (upstream env) as [|reply rest].
  { intros NO. now exfalso. }
  intros NO.
  match goal with
  | |- context [eventLoop ?en ?u ?c ?x ?e ?w0] =>
      destruct (eventLoop_flushed en u c x e w0 HO) as [H|H]
  end.
  - now exfalso.
  - exact H.
Qed.

Lemma closure_after_flush_witness :
  flushedBody (rw (snd (run (serveEventSource envClosed reqPlain) envClosed)))
  = body (rw (snd (run (serveEventSource envClosed reqPlain) envClosed))).
Proof.
  apply (closure_after_flush envClosed reqPlain
           (trace (eventStart envClosed reqPlain "tok")
            ++ sse_frame "s3" rewrittenRooms) []).
  vm_compute. reflexivity.
Defined.

Lemma PollsAfterFrame_nil : PollsAfterFrame [].
Proof. intros pre c post E. now destruct pre. Qed.

Lemma PollsAfterFrame_snoc (t : list Event) (e : Event) :
  PollsAfterFrame t -> is_poll e = false -> PollsAfterFrame (t ++ [e]).
Proof.
  intros Ht He pre c post E.
  destruct post as [|x post] using rev_ind.
  - apply app_inj_tail in E as [_ ->]. discriminate.
  - clear IHpost.
    change (pre ++ ESync true c :: post ++ [x])%list
      with (pre ++ (ESync true c :: post) ++ [x])%list in E.
    rewrite app_assoc in E. apply app_inj_tail in E as [E _].
    exact (Ht _ _ _ E).
Qed.

Lemma PollsAfterFrame_app (t' : list Event) :
  forall t, PollsAfterFrame t -> existsb is_poll t' = false ->
            PollsAfterFrame (t ++ t').
Proof.
  induction t' as [|e t' IH]; intros t Ht Hw.
  - now rewrite app_nil_r.
  - simpl in Hw. apply orb_false_iff in Hw as [He Hw].
    change (t ++ e :: t')%list with (t ++ [e] ++ t')%list.
    rewrite app_assoc. apply IH; [|exact Hw].
    now apply PollsAfterFrame_snoc.
Qed.

Lemma writer_events_no_poll (t : list Event) :
  forallb is_writer_event t = true -> existsb is_poll t = false.
Proof.
  induction t as [|e t IH]; [reflexivity|]. simpl. intros H.
  apply andb_true_iff in H as [He Ht]. rewrite (IH Ht).
  destruct e; try discriminate; reflexivity.
Qed.

Lemma PollsAfterFrame_poll (t : list Event) (c : Proxy.Client) (d : string) :
  PollsAfterFrame t ->
  PollsAfterFrame
    (((t ++ sse_frame (Proxy.NextSyncBatch c) d)
      ++ [EReadConnectionExists true]) ++ [ESync true c]).
Proof.
  intros Ht pre c' post E.
  destruct post as [|x post] using rev_ind.
  - apply app_inj_tail in E as [E Ec]. injection Ec as <-.
    exists t, d. now rewrite <- E, <- app_assoc.
  - clear IHpost.
    change (pre ++ ESync true c' :: post ++ [x])%list
      with (pre ++ (ESync true c' :: post) ++ [x])%list in E.
    rewrite app_assoc in E. apply app_inj_tail in E as [E _].
    revert E. apply PollsAfterFrame_snoc; [|reflexivity].
    apply PollsAfterFrame_app; [exact Ht|reflexivity].
Qed.

Lemma eventLoop_PollsAfterFrame :
  forall env upstream client content err w,
    PollsAfterFrame (trace w) ->
    PollsAfterFrame
      (trace (snd (eventLoop env upstream client content err w))).
Proof.
  apply (eventLoop_invariant
           (fun w => PollsAfterFrame (trace w))
           (fun x => PollsAfterFrame (trace (snd x)))).
  - intros e w H.
    destruct (emits_writer_relayError e w) as [t [-> Hw]].
    apply PollsAfterFrame_app; [exact H|now apply writer_events_no_poll].
  - intros k d w H _. cbn [snd]. rewrite readWorld_trace.
    apply PollsAfterFrame_snoc; [|reflexivity].
    apply PollsAfterFrame_app; [exact H|reflexivity].
  - intros c d w H Hb. cbn [snd]. rewrite (poll_trace _ _ _ _ Hb).
    split; now apply PollsAfterFrame_poll.
Qed.

(** X7.  Every long poll of [serveEventSource] comes right after a
    frame and a read of [connectionExists] that found the connection
    there, and it is issued with the session whose cursor the id line of
    that frame carried: between a frame and the poll after it the handler
    does not touch the session. *)
Theorem poll_follows_frame (env : Env) (req : Http.Request)
    (pre post : list Event) (c : Proxy.Client) :
  trace (snd (run (serveEventSource env req) env))
  = (pre ++ ESync true c :: post)%list ->
  exists pre' data,
    pre = (pre' ++ sse_frame (Proxy.NextSyncBatch c) data
           ++ [EReadConnectionExists true])%list.
Proof.
  revert pre c post. change (PollsAfterFrame
                               (trace (snd (run (serveEventSource env req) env)))).
  rewrite serveEventSource_cases.
  destruct (negb (is_GET req)).
  { unfold httpError.
    destruct (emits_writer_http_Error
                (Http.StatusText Http.StatusMethodNotAllowed)
                Http.StatusMethodNotAllowed (initWorld env)) as [t [-> Hw]].
    apply PollsAfterFrame_app;
      [apply PollsAfterFrame_nil|now apply writer_events_no_poll]. }
  destruct (negb (isFlusher env)).
  { destruct (emits_writer_http_Error "Streaming unsupported!"
                Http.StatusInternalServerError (initWorld env)) as [t [-> Hw]].
    apply PollsAfterFrame_app;
      [apply PollsAfterFrame_nil|now apply writer_events_no_poll]. }
  destruct (negb (isCloseNotifier env)); [apply PollsAfterFrame_nil|].
  destruct (fst (resolveAccessToken req (initWorld env))) as [tok| |];
    try apply PollsAfterFrame_nil.
  assert (HP : PollsAfterFrame (trace (eventStart env req tok))).
  { apply (PollsAfterFrame_app _ []);
      [apply PollsAfterFrame_nil|reflexivity]. }
  destruct (upstream env) as [|reply rest]; [exact HP|].
  now apply eventLoop_PollsAfterFrame.
Qed.

Lemma poll_follows_frame_witness :
  exists pre' data,
    (trace (eventStart envLate reqPlain "tok")
     ++ sse_frame "s3" rewrittenRooms ++ [EReadConnectionExists true])%list
    = (pre' ++ sse_frame (Proxy.NextSyncBatch clientS3) data
       ++ [EReadConnectionExists true])%list.
Proof.
  apply (poll_follows_frame envLate reqPlain
           (trace (eventStart envLate reqPlain "tok")
            ++ sse_frame "s3" rewrittenRooms ++ [EReadConnectionExists true])
           [EHeaderSet "Content-Type" "application/json";
            EWriteHeader 403; EWrite (Proxy.Body forbidden)]
           clientS3).
  vm_compute. reflexivity.
Defined.

Lemma count_syncs_app (t t' : list Event) :
  count_syncs (t ++ t') = count_syncs t + count_syncs t'.
Proof. unfold count_syncs. now rewrite filter_app, length_app. Qed.

Lemma writer_events_no_sync (t : list Event) :
  forallb is_writer_event t = true -> count_syncs t = 0.
Proof.
  induction t as [|e t IH]; [reflexivity|]. simpl. intros H.
  apply andb_true_iff in H as [He Ht]. unfold count_syncs in *. simpl.
  destruct e; try discriminate; simpl; auto.
Qed.

(** The [Sync] calls of the loop: none after an error, and otherwise at
    most one more than the successful replies still to come before a
    failed one. *)
Lemma eventLoop_count_syncs (env : Env) (upstream : list Proxy.SyncReply) :
  forall client content err w,
    count_syncs (trace (snd (eventLoop env upstream client content err w)))
    <= count_syncs (trace w)
       + match err with
         | Some _ => 0
         | None => S (leading_ok upstream)
         end.
Proof.
  induction upstream as [|reply upstream IH]; intros client content err w.
  all: destruct err as [e|];
    [ cbn [eventLoop];
      destruct (emits_writer_relayError e w) as [t [-> Hw]];
      rewrite count_syncs_app, (writer_events_no_sync _ Hw); lia
    | ].
  all: rewrite eventLoop_cycle.
  all: cbv zeta.
  all: match goal with
       | |- context [frameWorld ?k ?d ?w0] =>
           change (nextRead (frameWorld k d w0)) with (nextRead w0);
           destruct (nextRead w0) eqn:Hb
       end.
  all: try (cbn [snd]; rewrite readWorld_trace; cbn [frameWorld trace];
            rewrite !count_syncs_app; cbn; lia).
  all: try (cbn [snd]; rewrite (poll_trace _ _ _ _ Hb);
            rewrite !count_syncs_app; cbn; lia).
  all: match goal with
       | |- context [eventLoop ?en ?u ?c ?x ?e ?w0] =>
           pose proof (IH c x e w0) as B
       end.
  all: rewrite (poll_trace _ _ _ _ Hb) in B;
       rewrite !count_syncs_app in B; cbn in B.
  all: destruct reply as [content' next'|e']; cbn in B |- *; lia.
Qed.

(** X8.  [serveEventSource] does not try again after a failure: the
    number of its [Sync] calls is at most one more than the number of
    successful replies before the first failed one. *)
Theorem no_retry_after_failure (env : Env) (req : Http.Request) :
  count_syncs (trace (snd (run (serveEventSource env req) env)))
  <= S (leading_ok (upstream env)).
Proof.
  rewrite serveEventSource_cases.
  destruct (negb (is_GET req)).
  { unfold httpError.
    destruct (emits_writer_http_Error
                (Http.StatusText Http.StatusMethodNotAllowed)
                Http.StatusMethodNotAllowed (initWorld env)) as [t [-> Hw]].
    rewrite count_syncs_app, (writer_events_no_sync _ Hw). cbn. lia. }
  destruct (negb (isFlusher env)).
  { destruct (emits_writer_http_Error "Streaming unsupported!"
                Http.StatusInternalServerError (initWorld env)) as [t [-> Hw]].
    rewrite count_syncs_app, (writer_events_no_sync _ Hw). cbn. lia. }
  destruct (negb (isCloseNotifier env)); [cbn; lia|].
  destruct (fst (resolveAccessToken req (initWorld env))) as [tok| |];
    try (cbn; lia).
  destruct (upstream env) as [|reply rest]; [cbn; lia|].
  match goal with
  | |- context [eventLoop ?en ?u ?c ?x ?e ?w0] =>
      pose proof (eventLoop_count_syncs en u c x e w0) as B
  end.
  destruct reply as [content next|e]; cbn in B |- *; lia.
Qed.

(* ===================================================================== *)
(** ** Further properties of [PopNextBatch] *)
(* ===================================================================== *)

(** X9.  Whatever cursor the payload carried, the data [PopNextBatch]
    returns ends with the member [next_batch] and the empty string as
    its value: the field is emptied, and it is still written. *)
Theorem cursor_emptied_not_removed (input out : string) :
  PopNextBatch input = Json.Ok out ->
  exists front, out = front ++ cursor_member.
Proof.
  intros H. destruct (PopNextBatch_Ok _ _ H) as [jsr [_ ->]].
  unfold Json.Marshal, Json.members, Json.fields. cbn [map Json.join].
  unfold Json.encode_member. cbn [fst snd Json.fieldName Json.encodeField].
  cbn [Json.set_NextBatch Json.NextBatch Json.AccountData Json.ToDevice
       Json.DeviceLists Json.Presence Json.Rooms Json.Groups
       Json.DeviceOTKCount].
  exists ("{" ++ Json.encode_string "account_data" ++ ":"
               ++ Json.encode (Json.AccountData jsr) ++ ","
               ++ Json.encode_string "to_device" ++ ":"
               ++ Json.encode (Json.ToDevice jsr) ++ ","
               ++ Json.encode_string "device_lists" ++ ":"
               ++ Json.encode (Json.DeviceLists jsr) ++ ","
               ++ Json.encode_string "presence" ++ ":"
               ++ Json.encode (Json.Presence jsr) ++ ","
               ++ Json.encode_string "rooms" ++ ":"
               ++ Json.encode (Json.Rooms jsr) ++ ","
               ++ Json.encode_string "groups" ++ ":"
               ++ Json.encode (Json.Groups jsr) ++ ","
               ++ Json.encode_string "device_one_time_keys_count" ++ ":"
               ++ Json.encode_int (Json.DeviceOTKCount jsr)).
  rewrite !append_assoc. reflexivity.
Qed.

Lemma cursor_emptied_not_removed_witness :
  exists front, rewrittenRooms = front ++ cursor_member.
Proof.
  exact (cursor_emptied_not_removed payloadRooms rewrittenRooms
           ltac:(vm_compute; reflexivity)).
Defined.

(** X10.  What [PopNextBatch] makes of a payload that is no object: the
    JSON [null] is accepted and gives the encoding of the empty struct;
    a boolean, a number, a string or an array is a type error, with no
    data. *)
Theorem non_object_payload (input : string) (v : Json.value) :
  Json.parse input = Json.Ok v ->
  match v with
  | Json.JObject _ => True
  | Json.JNull => PopNextBatch input = Json.Ok (Json.Marshal Json.zero)
  | _ => PopNextBatch input = Json.Fail Json.UnmarshalTypeError
  end.
Proof.
  intros H. unfold PopNextBatch, Json.Unmarshal. rewrite H.
  destruct v; reflexivity || exact I.
Qed.

Lemma non_object_payload_witness :
  PopNextBatch (js "[{'rooms':{}}]") = Json.Fail Json.UnmarshalTypeError.
Proof.
  exact (non_object_payload (js "[{'rooms':{}}]")
           (Json.JArray [Json.JObject [("rooms", Json.JObject [])]])
           ltac:(vm_compute; reflexivity)).
Defined.







Lemma foldName_app (a b : string) :
  Json.foldName (a ++ b) = Json.foldName a ++ Json.foldName b.
Proof. induction a; simpl; congruence. Qed.

(** X12.  A key is matched to a field of the struct without regard to
    the case of its letters: a key that equals the name of a field once
    both are put in upper case is decoded into that field. *)
Theorem key_case_ignored (f : Json.Field) (k : string) :
  Json.foldName k = Json.foldName (Json.fieldName f) ->
  Json.findField k = Some f.
Proof.
  intros H. unfold Json.findField, Json.fields. cbn [find].
  repeat match goal with
         | |- context [String.eqb (Json.fieldName ?g) k] =>
             destruct (String.eqb_spec (Json.fieldName g) k) as [E|_];
             [ rewrite <- E in H; destruct f; (discriminate || reflexivity)
             | ]
         end.
  rewrite H. destruct f; reflexivity.
Qed.

Lemma key_case_ignored_witness : Json.findField "Next_Batch" = Some Json.FNextBatch.
Proof. exact (key_case_ignored Json.FNextBatch "Next_Batch" eq_refl). Defined.










Lemma toInterface_exact :
  forall v, exact_value v = true -> exists i, Json.toInterface v = Json.Ok i.
Proof.
  fix IH 1. intros [ |b|n|s|vs|ms] H; cbn [Json.toInterface exact_value] in *;
    try (eexists; reflexivity).
  - rewrite H. eexists; reflexivity.
  - match goal with
    | |- exists i, Json.bind ?x _ = _ =>
        assert (N : exists l, x = Json.Ok l);
        [|destruct N as [l ->]; eexists; reflexivity]
    end.
    induction vs as [|v vs IHvs]; [eexists; reflexivity|].
    cbn [forallb] in H. apply andb_true_iff in H as [Hv Hvs].
    destruct (IH v Hv) as [i ->]. destruct (IHvs Hvs) as [l ->].
    eexists; reflexivity.
  - match goal with
    | |- exists i, Json.bind (?F ms ?acc) _ = _ =>
        assert (N : forall a, exists m, F ms a = Json.Ok m);
        [|destruct (N acc) as [m ->]; eexists; reflexivity]
    end.
    induction ms as [|[k v] ms IHms]; intros a; [eexists; reflexivity|].
    cbn [forallb snd] in H. apply andb_true_iff in H as [Hv Hms].
    destruct (IH v Hv) as [i ->]. cbn [Json.bind]. apply IHms, Hms.
Qed.

Lemma storeField_fit (f : Json.Field) (v : Json.value) (st : Json.dstate) :
  fits f v = true ->
  (is_iface_field f = true -> exact_value v = true) ->
  exists st', Json.storeField f v st = Json.Ok st' /\ snd st' = snd st.
Proof.
  intros Hf Hx. destruct f.
  1-6: destruct (toInterface_exact v (Hx eq_refl)) as [i Hi];
       cbn [Json.storeField]; rewrite Hi; eexists; split; reflexivity.
  all: destruct v; cbn [fits] in Hf; try discriminate;
       cbn [Json.storeField]; rewrite ?Hf; eexists; split; reflexivity.
Qed.

Lemma decodeObject_fit (ms : list (string * Json.value)) :
  forall st,
    (forall k v f, In (k, v) ms -> Json.findField k = Some f ->
                   fits f v = true
                   /\ (is_iface_field f = true -> exact_value v = true)) ->
    exists st', Json.decodeObject ms st = Json.Ok st' /\ snd st' = snd st.
Proof.
  induction ms as [|[k v] ms IH]; intros st H.
  - eexists; split; reflexivity.
  - cbn [Json.decodeObject].
    assert (Hms : forall k v f, In (k, v) ms -> Json.findField k = Some f ->
                    fits f v = true
                    /\ (is_iface_field f = true -> exact_value v = true))
      by (intros k' v' f' Hin; apply H; now right).
    destruct (Json.findField k) as [f|] eqn:Ef; [|now apply IH].
    destruct (H k v f (or_introl eq_refl) Ef) as [Hf Hx].
    destruct (storeField_fit f v st Hf Hx) as [st1 [-> E1]].
    cbn [Json.bind]. destruct (IH st1 Hms) as [st' [-> E']].
    eexists; split; [reflexivity|congruence].
Qed.

(** X14.  [PopNextBatch] returns data for every payload that is an
    object whose members fit their fields: a member that names no field
    of the struct never matters, one that names an [interface{}] field
    may hold any value (with numbers the model covers), and only the
    members for [device_one_time_keys_count] and [next_batch] are held
    to a type. *)
Theorem fit_payload_accepted (input : string)
    (ms : list (string * Json.value)) :
  Json.parse input = Json.Ok (Json.JObject ms) ->
  (forall k v f, In (k, v) ms -> Json.findField k = Some f ->
                 fits f v = true
                 /\ (is_iface_field f = true -> exact_value v = true)) ->
  exists out, PopNextBatch input = Json.Ok out.
Proof.
  intros Hp H. unfold PopNextBatch, Json.Unmarshal. rewrite Hp.
  cbn [Json.bind].
  destruct (decodeObject_fit ms (Json.zero, None) H) as [[jsr e] [-> E]].
  cbn [snd] in E. subst e. eexists; reflexivity.
Qed.

Lemma fit_payload_accepted_witness :
  exists out, PopNextBatch payloadCustom = Json.Ok out.
Proof.
  apply (fit_payload_accepted payloadCustom
           [("next_batch", Json.JString "s1"); ("custom", Json.JNumber 1)]).
  - vm_compute. reflexivity.
  - intros k v f [E|[E|[]]] Hk; injection E as <- <-.
    + injection Hk as <-. split; [reflexivity|discriminate].
    + discriminate.
Defined.

(* ===================================================================== *)
(** ** Further properties of the relay, the frame and the rewrite *)
(* ===================================================================== *)

(** X15.  When the initial sync fails, on either endpoint, with a
    [MatrixError] or an [HttpError] whose status the response writer
    accepts and sends a body under, the handler returns and the response
    carries the status, content type and body of the upstream; with any
    other error it is the fixed 500 response with the text of that
    status, whatever the error says. *)
Theorem initial_failure_relayed (env : Env) (req : Http.Request)
    (e : Proxy.GoError) (rest : list Proxy.SyncReply) :
  is_GET req = true ->
  streams env = true ->
  token_resolves req = true ->
  relayable e = true ->
  upstream env = Proxy.SyncErr e :: rest ->
  forall handler, handler = serveEventSource \/ handler = serveStream ->
    fst (run (handler env req) env) = Val tt
    /\ match classified e with
       | Some h => relays h (rw (snd (run (handler env req) env)))
       | None => genericFailure (rw (snd (run (handler env req) env)))
       end.
Proof.
  intros HG HS HT HR HU. apply andb_true_iff in HS as [HF HC].
  destruct (resolveAccessToken_ok req (initWorld env) HT) as [tok Htok].
  intros handler [-> | ->].
  - rewrite serveEventSource_cases, HG, HF, HC, Htok, HU.
    cbn [negb fst snd Proxy.afterSync].
    replace (eventLoop env rest (eventClient env req tok) EmptyString
               (Some e))
      with (relayError e) by (destruct rest; reflexivity).
    apply relayError_fresh; [reflexivity|reflexivity|exact HR].
  - rewrite serveStream_cases, HG, Htok, HU. cbn [negb fst].
    apply relayError_fresh; [reflexivity|reflexivity|exact HR].
Qed.

Lemma initial_failure_relayed_witness :
  (fst (run (serveEventSource envRefused reqPlain) envRefused) = Val tt
   /\ relays forbidden
        (rw (snd (run (serveEventSource envRefused reqPlain) envRefused))))
  /\ (fst (run (serveStream envRefused reqPlain) envRefused) = Val tt
      /\ relays forbidden
           (rw (snd (run (serveStream envRefused reqPlain) envRefused)))).
Proof.
  split.
  - exact (initial_failure_relayed envRefused reqPlain
             (Proxy.MatrixError forbidden "M_FORBIDDEN" "no") []
             eq_refl eq_refl eq_refl eq_refl eq_refl
             serveEventSource (or_introl eq_refl)).
  - exact (initial_failure_relayed envRefused reqPlain
             (Proxy.MatrixError forbidden "M_FORBIDDEN" "no") []
             eq_refl eq_refl eq_refl eq_refl eq_refl
             serveStream (or_intror eq_refl)).
Defined.

(** X16.  A cycle of the loop entered without an error makes four calls
    and then reads [connectionExists], whatever [PopNextBatch] returns:
    it writes the id line with the cursor of the session, the line
    [event: sync], and the data line with what [PopNextBatch] returned
    and an empty line after it, and flushes.  When [PopNextBatch] accepts
    the payload, the data is the rewritten payload, which has no line
    break in it, so that with a cursor that has none the bytes of the
    frame are these three lines and the empty line; when it rejects the
    payload, the data is empty.  When the read finds the connection
    closed, the handler returns with all that was written flushed, and on
    a response with status 200 the body has grown by the frame. *)
Theorem cycle_writes_frame (env : Env) (upstream : list Proxy.SyncReply)
    (client : Proxy.Client) (content : string) (w : World) :
  (exists rest,
      trace (snd (eventLoop env upstream client content None w))
      = (trace w
         ++ sse_frame (Proxy.NextSyncBatch client)
              (fst (callPopNextBatch env content))
         ++ EReadConnectionExists (nextRead w) :: rest)%list)
  /\ (forall out, PopNextBatch content = Json.Ok out ->
        fst (callPopNextBatch env content) = out
        /\ GoString.contains_byte Json.LF out = false
        /\ (GoString.contains_byte Json.LF (Proxy.NextSyncBatch client)
            = false ->
            GoString.split_lines (sse_bytes (Proxy.NextSyncBatch client) out)
            = ["id: " ++ Proxy.NextSyncBatch client; "event: sync";
               "data: " ++ out; EmptyString; EmptyString]))
  /\ (forall e, PopNextBatch content = Json.Fail e ->
        fst (callPopNextBatch env content) = EmptyString)
  /\ (nextRead w = false ->
      fst (eventLoop env upstream client content None w) = Val tt
      /\ flushedBody (rw (snd (eventLoop env upstream client content None w)))
         = body (rw (snd (eventLoop env upstream client content None w)))
      /\ (wroteHeader (rw w) = false \/ status (rw w) = Http.StatusOK ->
          body (rw (snd (eventLoop env upstream client content None w)))
          = body (rw w)
            ++ sse_bytes (Proxy.NextSyncBatch client)
                 (fst (callPopNextBatch env content)))).
Proof.
  set (data := fst (callPopNextBatch env content)).
  split; [|split; [|split]].
  - rewrite eventLoop_cycle. cbv zeta. fold data.
    change (nextRead (frameWorld (Proxy.NextSyncBatch client) data w))
      with (nextRead w).
    destruct (nextRead w) eqn:Hb.
    + destruct upstream as [|reply upstream].
      * exists [ESync true client].
        cbn [snd emitWorld readWorld frameWorld trace].
        change (nextRead (frameWorld (Proxy.NextSyncBatch client) data w))
          with (nextRead w).
        rewrite Hb, <- !app_assoc. reflexivity.
      * match goal with
        | |- context [eventLoop ?en ?u ?c ?x ?e ?w0] =>
            destruct (extends_eventLoop en u c x e w0) as [t Ht]
        end.
        exists (ESync true client :: t). rewrite Ht.
        cbn [snd emitWorld readWorld frameWorld trace].
        change (nextRead (frameWorld (Proxy.NextSyncBatch client) data w))
          with (nextRead w).
        rewrite Hb, <- !app_assoc. reflexivity.
    + exists []. cbn [snd readWorld frameWorld trace].
      change (nextRead (frameWorld (Proxy.NextSyncBatch client) data w))
        with (nextRead w).
      rewrite Hb, <- !app_assoc. reflexivity.
  - intros out H. pose proof (PopNextBatch_no_LF _ _ H) as Hout.
    unfold data. rewrite (callPopNextBatch_Ok env _ _ H). cbn [fst].
    split; [reflexivity|]. split; [exact Hout|].
    intros Hc. apply sse_bytes_lines; assumption.
  - intros e H. unfold data.
    now rewrite (callPopNextBatch_Fail env _ _ H).
  - intros Hb. rewrite eventLoop_cycle. cbv zeta. fold data.
    change (nextRead (frameWorld (Proxy.NextSyncBatch client) data w))
      with (nextRead w).
    rewrite Hb. cbn [fst snd readWorld rw].
    split; [reflexivity|]. split; [reflexivity|].
    intros Hs. apply frameWorld_body, Hs.
Qed.

Lemma cycle_writes_frame_witness :
  (exists rest,
      trace (snd (eventLoop envClosed [] clientS3 payloadRooms None
                    (eventStart envClosed reqPlain "tok")))
      = (trace (eventStart envClosed reqPlain "tok")
         ++ sse_frame "s3" rewrittenRooms
         ++ EReadConnectionExists false :: rest)%list)
  /\ GoString.split_lines (sse_bytes "s3" rewrittenRooms)
     = ["id: s3"; "event: sync"; "data: " ++ rewrittenRooms;
        EmptyString; EmptyString]
  /\ fst (eventLoop envClosed [] clientS3 payloadRooms None
            (eventStart envClosed reqPlain "tok")) = Val tt
  /\ body (rw (snd (eventLoop envClosed [] clientS3 payloadRooms None
                      (eventStart envClosed reqPlain "tok"))))
     = sse_bytes "s3" rewrittenRooms.
Proof.
  destruct (cycle_writes_frame envClosed [] clientS3 payloadRooms
              (eventStart envClosed reqPlain "tok"))
    as [Ht [Hok [_ Hclosed]]].
  destruct (Hok rewrittenRooms ltac:(vm_compute; reflexivity))
    as [_ [_ Hlines]].
  destruct (Hclosed eq_refl) as [Hr [_ Hb]].
  split; [exact Ht|].
  split; [exact (Hlines eq_refl)|].
  split; [exact Hr|].
  exact (Hb (or_introl eq_refl)).
Defined.

(** X17.  What [PopNextBatch] keeps of a payload that is a JSON object
    and that it accepts: the data is the encoding of a struct whose
    cursor is empty and whose six [interface{}] fields each hold the
    decoded value of the last member of the payload that names the field,
    and [null] when no member does.  A member that names no field of the
    struct has no part in the data. *)
Theorem rewrite_holds_last_members (input out : string)
    (ms : list (string * Json.value)) :
  Json.parse input = Json.Ok (Json.JObject ms) ->
  PopNextBatch input = Json.Ok out ->
  exists jsr,
    out = Json.Marshal jsr
    /\ Json.NextBatch jsr = EmptyString
    /\ (forall f, is_iface_field f = true ->
          Json.toInterface (lastValue f ms) = Json.Ok (get_iface f jsr)).
Proof.
  intros Hp Ho. destruct (PopNextBatch_Ok _ _ Ho) as [jsr [Hu ->]].
  exists (Json.set_NextBatch EmptyString jsr).
  split; [reflexivity|]. split; [reflexivity|].
  intros f Hf.
  unfold Json.Unmarshal in Hu. rewrite Hp in Hu. cbn [Json.bind] in Hu.
  pose proof (decodeObject_lastValue ms (fun _ => Json.JNull)
                (Json.zero, None) (jsr, None)) as L.
  cbn [fst] in L.
  specialize (L ltac:(intros g Hg; destruct g; try discriminate;
                      reflexivity) Hu f Hf).
  unfold lastValue. rewrite L. destruct f; reflexivity.
Qed.

Lemma rewrite_holds_last_members_witness :
  exists jsr,
    rewrittenRooms = Json.Marshal jsr
    /\ Json.NextBatch jsr = EmptyString
    /\ (forall f, is_iface_field f = true ->
          Json.toInterface
            (lastValue f
               [("next_batch", Json.JString "s3");
                ("rooms", Json.JObject [("join", Json.JObject [])]);
                ("presence", Json.JObject [("events", Json.JArray [])])])
          = Json.Ok (get_iface f jsr)).
Proof.
  apply (rewrite_holds_last_members payloadRooms); vm_compute; reflexivity.
Defined.

Lemma stays_nextRead (w : World) :
  stays (reads w) = true ->
  nextRead w = true /\ stays (tl (reads w)) = true.
Proof.
  unfold nextRead, stays. destruct (reads w) as [|b r]; cbn; [auto|].
  intros H. apply andb_true_iff in H as [-> H]. auto.
Qed.

(** While the connection is there, the loop adds to the body a frame for
    the payload it holds and for each one that follows, and then the body
    of the first failure. *)
Lemma eventLoop_body (env : Env) (ups : list Proxy.SyncReply) :
  forall client content w,
    stays (reads w) = true ->
    wroteHeader (rw w) = false \/ status (rw w) = Http.StatusOK ->
    body (rw (snd (eventLoop env ups client content None w)))
    = body (rw w)
      ++ sse_bytes (Proxy.NextSyncBatch client)
           (fst (callPopNextBatch env content))
      ++ streamBytes env ups.
Proof.
  induction ups as [|reply ups IH]; intros client content w Hs Hw.
  all: rewrite eventLoop_cycle; cbv zeta.
  all: set (data := fst (callPopNextBatch env content)).
  all: change (nextRead (frameWorld (Proxy.NextSyncBatch client) data w))
         with (nextRead w).
  all: destruct (stays_nextRead w Hs) as [Hb Hs'].
  all: rewrite Hb.
  all: destruct (frameWorld_body (Proxy.NextSyncBatch client) data w Hw)
         as [H200 Hbody].
  - cbn [snd emitWorld readWorld rw streamBytes].
    now rewrite Hbody, append_nil_r.
  - set (w3 := emitWorld (ESync true client)
                 (readWorld (frameWorld (Proxy.NextSyncBatch client) data w))).
    assert (B3 : body (rw w3)
                 = body (rw w) ++ sse_bytes (Proxy.NextSyncBatch client) data)
      by exact Hbody.
    assert (S3 : status (rw w3) = Http.StatusOK) by exact H200.
    assert (W3 : wroteHeader (rw w3) = true) by reflexivity.
    assert (R3 : stays (reads w3) = true) by exact Hs'.
    destruct reply as [content' next'|e];
      cbn [Proxy.afterSync fst snd streamBytes].
    + rewrite (IH _ _ w3 R3 (or_intror S3)), B3.
      cbn [Proxy.set_NextSyncBatch Proxy.NextSyncBatch].
      now rewrite !append_assoc.
    + replace (eventLoop env ups client EmptyString (Some e))
        with (relayError e) by (destruct ups; reflexivity).
      destruct (relayError_started e w3 W3) as [_ [_ [_ ->]]].
      rewrite S3.
      change (bodyAllowedForStatus Http.StatusOK) with true. cbv iota.
      now rewrite B3, !append_assoc.
Qed.

(** X18.  The body of the event stream, while the connection is there:
    one frame for each payload of the upstream, in order, each with the
    cursor that came with the payload and with what [PopNextBatch] made
    of it, and after the frames the body of the first failure, if one
    comes.  A failure of the initial sync whose status the response writer
    accepts and sends a body under gives its body alone. *)
Theorem stream_body_is_frames (env : Env) (req : Http.Request) :
  is_GET req = true ->
  streams env = true ->
  token_resolves req = true ->
  stays (connectionExists env) = true ->
  (forall e rest, upstream env = Proxy.SyncErr e :: rest ->
                  relayable e = true) ->
  body (rw (snd (run (serveEventSource env req) env)))
  = streamBytes env (upstream env).
Proof.
  intros HG HS HT Hst Hrel. apply andb_true_iff in HS as [HF HC].
  destruct (resolveAccessToken_ok req (initWorld env) HT) as [tok Htok].
  rewrite serveEventSource_cases, HG, HF, HC, Htok.
  cbn [negb fst].
  destruct (upstream env) as [|[content next|e] rest] eqn:HU.
  - reflexivity.
  - cbn [Proxy.afterSync fst snd streamBytes].
    rewrite eventLoop_body; [reflexivity|exact Hst|left; reflexivity].
  - cbn [Proxy.afterSync fst snd streamBytes].
    replace (eventLoop env rest (eventClient env req tok) EmptyString
               (Some e))
      with (relayError e) by (destruct rest; reflexivity).
    specialize (Hrel e rest eq_refl).
    destruct (relayError_fresh e (eventStart env req tok)
                eq_refl eq_refl Hrel) as [_ H].
    unfold relayedBody.
    destruct (classified e) as [h|]; destruct H as [_ [_ ->]]; reflexivity.
Qed.

Lemma stream_body_is_frames_witness :
  body (rw (snd (run (serveEventSource envLate reqPlain) envLate)))
  = sse_bytes "s3" rewrittenRooms ++ Proxy.Body forbidden.
Proof.
  apply (stream_body_is_frames envLate reqPlain);
    try reflexivity.
  intros e rest H. discriminate.
Defined.
